(** * SubtleCrypto: the dispatch core of src/SubtleCrypto.js

    A shallow embedding of the [SubtleCrypto] class: the public methods
    [encrypt], [decrypt], [sign], [verify], [digest], [importKey],
    [exportKey], [wrapKey] and [unwrapKey], the promises they return and the
    calls they make into the algorithm modules.

    The collaborators the file requires but does not define
    ([supportedAlgorithms], the algorithm modules, [JsonWebKey],
    [recognizedKeyUsages], the JSON and text codecs) are the fields of a
    [World]; every definition and theorem is relative to an arbitrary one. *)

From Stdlib Require Import List String Bool Arith Lia.
From Stdlib Require Import Strings.Byte.
Import ListNotations.
Open Scope string_scope.
Open Scope list_scope.

Set Implicit Arguments.

(** ** Data model *)

Definition octets := list byte.

(** The error classes of [./errors] and the built-in ones the file throws. *)
Inductive ErrorName :=
| InvalidAccessError
| NotSupportedError
| SyntaxError
| TypeError
| DataError
| OperationError.

Record Error := mkError { error_name : ErrorName; message : string }.

(** The operation names under which algorithms are registered; the same
    names are the method names probed on an algorithm object. *)
Inductive Operation :=
| op_encrypt | op_decrypt | op_sign | op_verify | op_digest
| op_generateKey | op_importKey | op_exportKey
| op_deriveBits | op_deriveKey | op_wrapKey | op_unwrapKey.

Definition Operation_eqb (a b : Operation) : bool :=
  match a, b with
  | op_encrypt, op_encrypt | op_decrypt, op_decrypt
  | op_sign, op_sign | op_verify, op_verify | op_digest, op_digest
  | op_generateKey, op_generateKey | op_importKey, op_importKey
  | op_exportKey, op_exportKey | op_deriveBits, op_deriveBits
  | op_deriveKey, op_deriveKey | op_wrapKey, op_wrapKey
  | op_unwrapKey, op_unwrapKey => true
  | _, _ => false
  end.

Inductive KeyType := secret | private | public.

(** An algorithm object: what [supportedAlgorithms.normalize] returns and
    what a key carries in [key.algorithm].  [methods] lists the members that
    are defined on it ([normalizedAlgorithm['wrapKey']] is truthy iff
    [op_wrapKey] is listed). *)
Record Algorithm := mkAlgorithm {
  name : string;
  methods : list Operation;
  params : list (string * octets)
}.

Record CryptoKey := mkCryptoKey {
  type : KeyType;
  extractable : bool;
  algorithm : Algorithm;
  usages : list string;
  handle : octets
}.

Record JsonWebKey := mkJsonWebKey {
  kty : string;
  members : list (string * string)
}.

(** A caller-supplied algorithm descriptor object. *)
Record Descriptor := mkDescriptor {
  desc_name : string;
  desc_members : list (string * octets)
}.

(** Immutable JavaScript values.  [VBytes] is an octet buffer nobody but its
    holder can reach (a copy, or the output of a module); [VObject] is an
    object literal, [VJsonWebKey] an instance of the [JsonWebKey] class. *)
Inductive value :=
| VUndefined
| VBoolean (b : bool)
| VString (s : string)
| VBytes (bs : octets)
| VArray (items : list string)
| VDescriptor (d : Descriptor)
| VObject (fields : list (string * string))
| VJsonWebKey (j : JsonWebKey)
| VCryptoKey (k : CryptoKey)
| VCryptoKeyPair (publicKey privateKey : CryptoKey).

(** What a variable of the dispatcher holds: a value of its own, or a
    reference to an octet buffer the caller still holds and may overwrite. *)
Inductive jsval :=
| Caller (r : nat)
| Local (v : value).

(** The contents of the caller's buffers at one instant. *)
Definition store := nat -> octets.

Definition deref (s : store) (x : jsval) : value :=
  match x with
  | Caller r => VBytes (s r)
  | Local v => v
  end.

(** ** The collaborators *)

Record World := mkWorld {
  (** [supportedAlgorithms.normalize(op, alg)], on whatever value it is
      passed: an algorithm object or an [Error] instance. *)
  normalize : Operation -> value -> Error + Algorithm;
  (** truthiness of [supportedAlgorithms[op][name]] *)
  registered : Operation -> string -> bool;
  (** a method of an algorithm object applied to its arguments: it returns
      or throws *)
  perform : Algorithm -> Operation -> list value -> Error + value;
  (** the [importKey] method, whose result is a [CryptoKey] *)
  perform_importKey : Algorithm -> list value -> Error + CryptoKey;
  (** [new JsonWebKey(data)]: an instance of the class, unless the
      constructor throws *)
  JsonWebKey_new : value -> Error + JsonWebKey;
  (** [recognizedKeyUsages.normalize(keyUsages)] *)
  recognizedKeyUsages_normalize : value -> Error + list string;
  (** [new TextEncoder().encode(JSON.stringify(x))] *)
  stringify_encode : value -> value;
  (** [JSON.parse(new TextDecoder().decode(x))] *)
  decode_parse : value -> Error + value;
  (** [new Uint8Array(x)] *)
  Uint8Array_new : value -> octets
}.

(** ** Promises, events and the evaluation monad *)

Inductive promise (A : Type) :=
| Resolved (a : A)
| Rejected (e : Error)
| Pending.
Arguments Rejected {A} e.
Arguments Pending {A}.

Inductive event :=
| Enter (op : Operation)
| Invoke (alg : Algorithm) (method : Operation) (args : list jsval)
| LogError (e : Error)
| LogValue (v : value).

(** The outcome of running a piece of code: a value, a thrown exception, or
    [Beyond]: the run left what is modelled (the call depth was exhausted,
    a field of a key was assigned a value of another type, or an object
    literal was used where a key is expected).  No well-typed request ends
    there ([dispatch_returns_promise] below). *)
Inductive outcome (A : Type) :=
| Val (a : A)
| Exn (e : Error)
| Beyond.
Arguments Exn {A} e.
Arguments Beyond {A}.

(** [cell] is the state of the promise whose executor is running: [None]
    until [resolve] or [reject] is first called.  [trace] is kept newest
    first. *)
Record state := mkState {
  trace : list event;
  cell : option (promise value)
}.

Definition M (A : Type) := state -> outcome A * state.

Definition ret {A} (a : A) : M A := fun st => (Val a, st).

Definition bind {A B} (m : M A) (k : A -> M B) : M B :=
  fun st =>
    match m st with
    | (Val a, st') => k a st'
    | (Exn e, st') => (Exn e, st')
    | (Beyond, st') => (Beyond, st')
    end.

Declare Scope js_scope.
Delimit Scope js_scope with js.
Notation "x <- m ;; k" := (bind m (fun x => k))
  (at level 61, m at next level, right associativity) : js_scope.
Notation "m ;; k" := (bind m (fun _ => k))
  (at level 61, right associativity) : js_scope.
Open Scope js_scope.

Definition throw {A} (e : Error) : M A := fun st => (Exn e, st).

Definition beyond {A} : M A := fun st => (Beyond, st).

Definition emit (ev : event) : M unit :=
  fun st => (Val tt, mkState (ev :: trace st) (cell st)).

(** [if (c) { throw e }] *)
Definition throw_if (c : bool) (e : Error) : M unit :=
  if c then throw e else ret tt.

(** [try { body } catch (error) { handler }] *)
Definition try_catch {A} (body : M A) (handler : Error -> M A) : M A :=
  fun st =>
    match body st with
    | (Exn e, st') => handler e st'
    | r => r
    end.

(** [resolve(v)] and [reject(e)] of the running executor: the first call
    settles the promise, later ones are ignored. *)
Definition settle (p : promise value) : M unit :=
  fun st =>
    match cell st with
    | None => (Val tt, mkState (trace st) (Some p))
    | Some _ => (Val tt, st)
    end.

Definition resolve (v : value) : M unit := settle (Resolved v).
Definition reject (e : Error) : M unit := settle (Rejected e).

(** [new Promise((resolve, reject) => { body })]: the executor runs at once;
    an exception that escapes it rejects the promise unless it is settled
    already.  The promise is given in its eventual state. *)
Definition new_Promise (body : M unit) : M (promise value) :=
  fun st =>
    let '(r, st') := body (mkState (trace st) None) in
    let back := mkState (trace st') (cell st) in
    match r with
    | Val _ =>
        (Val (match cell st' with Some p => p | None => Pending end), back)
    | Exn e =>
        (Val (match cell st' with Some p => p | None => Rejected e end), back)
    | Beyond => (Beyond, back)
    end.

(** [p.then(cb)]: [cb] runs once [p] is fulfilled; what it returns fulfils
    the derived promise, what it throws rejects it. *)
Definition then_ {A B} (p : promise A) (cb : A -> M B) : M (promise B) :=
  match p with
  | Resolved a =>
      fun st =>
        match cb a st with
        | (Val b, st') => (Val (Resolved b), st')
        | (Exn e, st') => (Val (Rejected e), st')
        | (Beyond, st') => (Beyond, st')
        end
  | Rejected e => ret (Rejected e)
  | Pending => ret Pending
  end.

(** [p.catch(cb)] *)
Definition catch_ {A} (p : promise A) (cb : Error -> M A) : M (promise A) :=
  match p with
  | Resolved a => ret (Resolved a)
  | Rejected e =>
      fun st =>
        match cb e st with
        | (Val b, st') => (Val (Resolved b), st')
        | (Exn e', st') => (Val (Rejected e'), st')
        | (Beyond, st') => (Beyond, st')
        end
  | Pending => ret Pending
  end.

(** Running a public method from an empty trace: its outcome and the events
    in the order they happened. *)
Definition run {A} (m : M A) : outcome A * list event :=
  let '(r, st) := m (mkState [] None) in (r, rev (trace st)).

(** ** Property access and the built-in methods the file relies on *)

Definition TypeError_ (msg : string) : Error := mkError TypeError msg.

(** A string literal between double quotes, as the messages spell usages. *)
Definition quoted (s : string) : string :=
  String (Ascii.ascii_of_nat 34) (s ++ String (Ascii.ascii_of_nat 34) EmptyString).

(** Whether an object literal carries the member [m]. *)
Definition has_member (v : value) (m : string) : bool :=
  match v with
  | VDescriptor d => existsb (fun p => fst p =? m) (desc_members d)
  | VObject fields => existsb (fun p => fst p =? m) fields
  | VJsonWebKey j => existsb (fun p => fst p =? m) (members j)
  | _ => false
  end.

(** [key.algorithm], read in order to use a member of it: an algorithm
    object for a [CryptoKey]; for a value without that property the member
    access throws.  An object literal that happens to carry a member called
    [algorithm] is not modelled. *)
Definition key_algorithm (key : jsval) : M Algorithm :=
  match key with
  | Local (VCryptoKey k) => ret (algorithm k)
  | Caller _ => throw (TypeError_ "Cannot read properties of undefined")
  | Local v =>
      if has_member v "algorithm" then beyond
      else throw (TypeError_ "Cannot read properties of undefined")
  end.

(** [key.algorithm.name] *)
Definition key_algorithm_name (key : jsval) : M string :=
  a <- key_algorithm key ;; ret (name a).

(** [key.usages], read in order to call [includes] on it. *)
Definition key_usages (key : jsval) : M (list string) :=
  match key with
  | Local (VCryptoKey k) => ret (usages k)
  | Caller _ => throw (TypeError_ "Cannot read properties of undefined")
  | Local v =>
      if has_member v "usages" then beyond
      else throw (TypeError_ "Cannot read properties of undefined")
  end.

(** [usages.includes(u)] *)
Definition includes (us : list string) (u : string) : bool :=
  existsb (String.eqb u) us.

(** [key.extractable === false] *)
Definition extractable_is_false (key : jsval) : M bool :=
  match key with
  | Local (VCryptoKey k) => ret (negb (extractable k))
  | Local VUndefined => throw (TypeError_ "Cannot read properties of undefined")
  | _ => ret false
  end.

(** [x instanceof JsonWebKey] *)
Definition instanceof_JsonWebKey (x : jsval) : bool :=
  match x with
  | Local (VJsonWebKey _) => true
  | _ => false
  end.

(** [format === lit] *)
Definition is_string (x : jsval) (lit : string) : bool :=
  match x with
  | Local (VString s) => s =? lit
  | _ => false
  end.

(** [["raw", "pkcs8", "spki"].includes(format)], which is also
    [format === 'raw' || format === 'pkcs8' || format === 'spki'] *)
Definition is_octet_format (format : jsval) : bool :=
  is_string format "raw" || is_string format "pkcs8" || is_string format "spki".

(** [x.slice()]: buffers, arrays and strings have the method and it returns
    a copy; the copy of a caller's buffer holds what the buffer holds now. *)
Definition slice (s : store) (x : jsval) : M jsval :=
  match x with
  | Caller r => ret (Local (VBytes (s r)))
  | Local (VBytes bs) => ret (Local (VBytes bs))
  | Local (VArray l) => ret (Local (VArray l))
  | Local (VString t) => ret (Local (VString t))
  | Local _ => throw (TypeError_ "slice is not a function")
  end.

(** [result.extractable = extractable] and [result.usages = keyUsages]
    are modelled for a boolean and for an array. *)
Definition as_boolean (x : jsval) : M bool :=
  match x with
  | Local (VBoolean b) => ret b
  | _ => beyond
  end.

Definition as_array (x : jsval) : M (list string) :=
  match x with
  | Local (VArray l) => ret l
  | _ => beyond
  end.

Definition lift {A} (r : Error + A) : M A :=
  match r with
  | inl e => throw e
  | inr a => ret a
  end.

Definition has_method (a : Algorithm) (m : Operation) : bool :=
  existsb (Operation_eqb m) (methods a).

Definition restricted (t : KeyType) : bool :=
  match t with
  | secret | private => true
  | public => false
  end.

Definition emptyUsages (us : list string) : bool :=
  match us with
  | [] => true
  | _ => false
  end.

(** ** The dispatcher *)

Section SubtleCrypto.

Variable w : World.

(** [s0]: the caller's buffers while the public method runs;
    [s1]: the same buffers when the promise reactions run, after the
    method has returned and the caller has gone on. *)
Variables s0 s1 : store.

(** [alg.method(args)] at an instant when the caller's buffers hold [s]:
    the event records the arguments as they are passed, the method acts on
    what they hold. *)
Definition call (s : store) (alg : Algorithm) (method : Operation)
    (args : list jsval) : M value :=
  if has_method alg method then
    emit (Invoke alg method args) ;;
    lift (perform w alg method (map (deref s) args))
  else throw (TypeError_ "is not a function").

Definition call_importKey (s : store) (alg : Algorithm) (args : list jsval)
    : M CryptoKey :=
  if has_method alg op_importKey then
    emit (Invoke alg op_importKey args) ;;
    lift (perform_importKey w alg (map (deref s) args))
  else throw (TypeError_ "is not a function").

Definition encrypt (alg key data : jsval) : M (promise value) :=
  emit (Enter op_encrypt) ;;
  data <- slice s0 data ;;
  match normalize w op_encrypt (deref s0 alg) with
  | inl normalizedAlgorithm => ret (Rejected normalizedAlgorithm)
  | inr normalizedAlgorithm =>
      new_Promise (
        keyName <- key_algorithm_name key ;;
        throw_if (negb (name normalizedAlgorithm =? keyName))
          (mkError InvalidAccessError "Algorithm does not match key") ;;
        keyUsages <- key_usages key ;;
        throw_if (negb (includes keyUsages "encrypt"))
          (mkError InvalidAccessError ("Key usages must include " ++ quoted "encrypt")) ;;
        ciphertext <- call s0 normalizedAlgorithm op_encrypt [alg; key; data] ;;
        resolve ciphertext)
  end.

Definition decrypt (alg key data : jsval) : M (promise value) :=
  emit (Enter op_decrypt) ;;
  match normalize w op_decrypt (deref s0 alg) with
  | inl normalizedAlgorithm => ret (Rejected normalizedAlgorithm)
  | inr normalizedAlgorithm =>
      data <- slice s0 data ;;
      new_Promise (
        keyName <- key_algorithm_name key ;;
        throw_if (negb (name normalizedAlgorithm =? keyName))
          (mkError InvalidAccessError "Algorithm does not match key") ;;
        keyUsages <- key_usages key ;;
        throw_if (negb (includes keyUsages "decrypt"))
          (mkError InvalidAccessError ("Key usages must include " ++ quoted "decrypt")) ;;
        plaintext <- call s0 normalizedAlgorithm op_decrypt [alg; key; data] ;;
        resolve plaintext)
  end.

Definition sign (alg key data : jsval) : M (promise value) :=
  emit (Enter op_sign) ;;
  data <- slice s0 data ;;
  match normalize w op_sign (deref s0 alg) with
  | inl normalizedAlgorithm => ret (Rejected normalizedAlgorithm)
  | inr normalizedAlgorithm =>
      new_Promise (
        keyName <- key_algorithm_name key ;;
        throw_if (negb (name normalizedAlgorithm =? keyName))
          (mkError InvalidAccessError "Algorithm does not match key") ;;
        keyUsages <- key_usages key ;;
        throw_if (negb (includes keyUsages "sign"))
          (mkError InvalidAccessError ("Key usages must include " ++ quoted "sign")) ;;
        result <- call s0 normalizedAlgorithm op_sign [key; data] ;;
        resolve result)
  end.

Definition verify (alg key signature data : jsval) : M (promise value) :=
  emit (Enter op_verify) ;;
  signature <- slice s0 signature ;;
  match normalize w op_verify (deref s0 alg) with
  | inl normalizedAlgorithm => ret (Rejected normalizedAlgorithm)
  | inr normalizedAlgorithm =>
      data <- slice s0 data ;;
      new_Promise (
        keyName <- key_algorithm_name key ;;
        throw_if (negb (name normalizedAlgorithm =? keyName))
          (mkError InvalidAccessError "Algorithm does not match key") ;;
        keyUsages <- key_usages key ;;
        throw_if (negb (includes keyUsages "verify"))
          (mkError InvalidAccessError ("Key usages must include " ++ quoted "verify")) ;;
        result <- call s0 normalizedAlgorithm op_verify [key; signature; data] ;;
        resolve result)
  end.

Definition digest (alg data : jsval) : M (promise value) :=
  emit (Enter op_digest) ;;
  data <- slice s0 data ;;
  match normalize w op_digest (deref s0 alg) with
  | inl normalizedAlgorithm => ret (Rejected normalizedAlgorithm)
  | inr normalizedAlgorithm =>
      new_Promise (
        try_catch (
          result <- call s0 normalizedAlgorithm op_digest [alg; data] ;;
          resolve result)
        reject)
  end.

Definition generateKey (alg extractable keyUsages : jsval)
    : M (promise value) :=
  emit (Enter op_generateKey) ;;
  match normalize w op_generateKey (deref s0 alg) with
  | inl normalizedAlgorithm => ret (Rejected normalizedAlgorithm)
  | inr normalizedAlgorithm =>
      new_Promise (
        try_catch (
          result <- call s0 normalizedAlgorithm op_generateKey
                      [alg; extractable; keyUsages] ;;
          match result with
          | VCryptoKey key =>
              throw_if (restricted (type key) && emptyUsages (usages key))
                (mkError SyntaxError EmptyString)
          | _ => ret tt
          end ;;
          match result with
          | VCryptoKeyPair _ privateKey =>
              throw_if (emptyUsages (usages privateKey))
                (mkError SyntaxError EmptyString)
          | _ => ret tt
          end ;;
          resolve result)
        reject)
  end.

(** [new Promise()]: without an executor the constructor throws. *)
Definition new_Promise_without_executor : M (promise value) :=
  throw (TypeError_ "Promise resolver undefined is not a function").

Definition deriveKey (alg baseKey derivedKeyType extractable keyUsages : jsval)
    : M (promise value) :=
  emit (Enter op_deriveKey) ;;
  new_Promise_without_executor.

Definition deriveBits (alg baseKey length : jsval) : M (promise value) :=
  emit (Enter op_deriveBits) ;;
  new_Promise_without_executor.

Definition importKey (format keyData alg extractable keyUsages : jsval)
    : M (promise value) :=
  emit (Enter op_importKey) ;;
  match normalize w op_importKey (deref s0 alg) with
  | inl normalizedAlgorithm => ret (Rejected normalizedAlgorithm)
  | inr normalizedAlgorithm =>
      new_Promise (
        keyData <-
          (if is_octet_format format then
             throw_if (instanceof_JsonWebKey keyData)
               (mkError TypeError EmptyString) ;;
             slice s0 keyData
           else ret keyData) ;;
        keyData <-
          (if is_string format "jwk" then
             j <- lift (JsonWebKey_new w (deref s0 keyData)) ;;
             let keyData := Local (VJsonWebKey j) in
             throw_if (negb (instanceof_JsonWebKey keyData))
               (mkError TypeError "key is not a JSON Web Key") ;;
             ret keyData
           else ret keyData) ;;
        try_catch (
          result <- call_importKey s0 normalizedAlgorithm
                      [format; keyData; alg; extractable; keyUsages] ;;
          throw_if (restricted (type result) && emptyUsages (usages result))
            (mkError SyntaxError EmptyString) ;;
          extractable <- as_boolean extractable ;;
          keyUsages <- lift (recognizedKeyUsages_normalize w (deref s0 keyUsages)) ;;
          resolve (VCryptoKey (mkCryptoKey (type result) extractable
                                 (algorithm result) keyUsages (handle result))))
        reject)
  end.

Definition exportKey (format key : jsval) : M (promise value) :=
  emit (Enter op_exportKey) ;;
  new_Promise (
    try_catch (
      keyAlgorithm <- key_algorithm key ;;
      throw_if (negb (registered w op_exportKey (name keyAlgorithm)))
        (mkError NotSupportedError (name keyAlgorithm)) ;;
      notExtractable <- extractable_is_false key ;;
      throw_if notExtractable
        (mkError InvalidAccessError "Key is not extractable") ;;
      result <- call s0 keyAlgorithm op_exportKey [format; key] ;;
      resolve result)
    reject).

(** The two attempts at normalizing a wrapping or unwrapping algorithm:
    under [primary], and when that gave an [Error], under [fallback]. *)
Definition normalize_or (primary fallback : Operation) (alg : value)
    : Error + Algorithm :=
  let normalizedAlgorithm := normalize w primary alg in
  match normalizedAlgorithm with
  | inl _ => normalize w fallback alg
  | inr _ => normalizedAlgorithm
  end.

(** The executor of the promise [wrapKey] returns; [normalizedAlgorithm]
    is the variable it captures. *)
Definition wrapKey_executor (normalizedAlgorithm : Algorithm)
    (format key wrappingKey wrapAlgorithm : jsval) : M unit :=
  try_catch (
    wrappingName <- key_algorithm_name wrappingKey ;;
    throw_if (negb (name normalizedAlgorithm =? wrappingName))
      (mkError InvalidAccessError
         "NormalizedAlgorthm name must be same as wrappingKey algorithm name") ;;
    wrappingUsages <- key_usages wrappingKey ;;
    throw_if (negb (includes wrappingUsages "wrapKey"))
      (mkError InvalidAccessError
         ("Wrapping key usages must include " ++ quoted "wrapKey")) ;;
    keyName <- key_algorithm_name key ;;
    throw_if (negb (registered w op_exportKey keyName))
      (mkError NotSupportedError keyName) ;;
    notExtractable <- extractable_is_false key ;;
    throw_if notExtractable
      (mkError InvalidAccessError "Key is not extractable") ;;
    exported <- exportKey format key ;;
    wrapped <- then_ exported (fun exportedKey =>
      let bytes :=
        if is_octet_format format then exportedKey
        else if is_string format "jwk" then stringify_encode w exportedKey
        else VUndefined in
      if has_method normalizedAlgorithm op_wrapKey then
        call s1 normalizedAlgorithm op_wrapKey
          [wrapAlgorithm; wrappingKey; Local (VBytes (Uint8Array_new w bytes))]
      else if has_method normalizedAlgorithm op_encrypt then
        call s1 normalizedAlgorithm op_encrypt
          [wrapAlgorithm; wrappingKey; Local (VBytes (Uint8Array_new w bytes))]
      else
        reject (mkError NotSupportedError (name normalizedAlgorithm)) ;;
        ret VUndefined) ;;
    then_ wrapped resolve ;;
    ret tt)
  reject.

Definition wrapKey (format key wrappingKey wrapAlgorithm : jsval)
    : M (promise value) :=
  emit (Enter op_wrapKey) ;;
  match normalize_or op_wrapKey op_encrypt (deref s0 wrapAlgorithm) with
  | inl normalizedAlgorithm => ret (Rejected normalizedAlgorithm)
  | inr normalizedAlgorithm =>
      new_Promise
        (wrapKey_executor normalizedAlgorithm format key wrappingKey wrapAlgorithm)
  end.

(** [fuel] bounds the depth of the calls [unwrapKey] makes to itself. *)
Fixpoint unwrapKey (fuel : nat)
    (format wrappedKey unwrappingKey unwrapAlgorithm unwrappedKeyAlgorithm
       extractable keyUsages : jsval) : M (promise value) :=
  match fuel with
  | O => beyond
  | S fuel =>
  emit (Enter op_unwrapKey) ;;
  match normalize_or op_unwrapKey op_decrypt (deref s0 unwrapAlgorithm) with
  | inl normalizedAlgorithm => ret (Rejected normalizedAlgorithm)
  | inr normalizedAlgorithm =>
  match normalize w op_importKey (deref s0 unwrapAlgorithm) with
  | inl normalizedKeyAlgorithm => ret (Rejected normalizedKeyAlgorithm)
  | inr normalizedKeyAlgorithm =>
      new_Promise (
        try_catch (
          unwrappingName <- key_algorithm_name unwrappingKey ;;
          throw_if (negb (name normalizedAlgorithm =? unwrappingName))
            (mkError InvalidAccessError
               "NormalizedAlgorthm name must be same as unwrappingKey algorithm name") ;;
          unwrappingUsages <- key_usages unwrappingKey ;;
          throw_if (negb (includes unwrappingUsages "unwrapKey"))
            (mkError InvalidAccessError
               ("Unwrapping key usages must include " ++ quoted "unwrapKey")) ;;
          let continue (keyPromise : promise value) : M unit :=
            imported <- then_ keyPromise (fun key =>
              bytes <-
                (if is_octet_format format then ret key
                 else if is_string format "jwk" then
                   bytes <- lift (decode_parse w key) ;;
                   emit (LogValue bytes) ;;
                   ret bytes
                 else ret VUndefined) ;;
              call_importKey s1 normalizedKeyAlgorithm
                [format; Local bytes; unwrappedKeyAlgorithm; extractable; keyUsages]) ;;
            finished <- then_ imported (fun result =>
              throw_if (restricted (type result) && emptyUsages (usages result))
                (mkError SyntaxError "Usages cannot be empty") ;;
              extractable <- as_boolean extractable ;;
              keyUsages <- as_array keyUsages ;;
              resolve (VCryptoKey (mkCryptoKey (type result) extractable
                                     (algorithm result) keyUsages (handle result)))) ;;
            catch_ finished (fun error => emit (LogError error)) ;;
            ret tt in
          if has_method normalizedAlgorithm op_unwrapKey then
            keyPromise <- unwrapKey fuel unwrapAlgorithm unwrappingKey wrappedKey
                            (Local VUndefined) (Local VUndefined)
                            (Local VUndefined) (Local VUndefined) ;;
            continue keyPromise
          else if has_method normalizedAlgorithm op_decrypt then
            keyPromise <- decrypt unwrapAlgorithm unwrappingKey wrappedKey ;;
            continue keyPromise
          else
            reject (mkError NotSupportedError (name normalizedAlgorithm)))
        reject)
  end end end.

End SubtleCrypto.

(** ** Well-typed requests

    A call of a public method with arguments of the types its documentation
    gives: keys are [CryptoKey]s, octet inputs are buffers of the caller,
    algorithm identifiers and key material are values. *)

Inductive request :=
| req_encrypt (alg : value) (key : CryptoKey) (data : nat)
| req_decrypt (alg : value) (key : CryptoKey) (data : nat)
| req_sign (alg : value) (key : CryptoKey) (data : nat)
| req_verify (alg : value) (key : CryptoKey) (signature data : nat)
| req_digest (alg : value) (data : nat)
| req_importKey (format : string) (keyData : jsval) (alg : value)
    (extractable : bool) (keyUsages : list string)
| req_exportKey (format : string) (key : CryptoKey)
| req_wrapKey (format : string) (key wrappingKey : CryptoKey)
    (wrapAlgorithm : value)
| req_unwrapKey (format : string) (wrappedKey : nat)
    (unwrappingKey : CryptoKey) (unwrapAlgorithm unwrappedKeyAlgorithm : value)
    (extractable : bool) (keyUsages : list string).

Definition dispatch (w : World) (s0 s1 : store) (fuel : nat) (q : request)
    : M (promise value) :=
  match q with
  | req_encrypt alg key data =>
      encrypt w s0 (Local alg) (Local (VCryptoKey key)) (Caller data)
  | req_decrypt alg key data =>
      decrypt w s0 (Local alg) (Local (VCryptoKey key)) (Caller data)
  | req_sign alg key data =>
      sign w s0 (Local alg) (Local (VCryptoKey key)) (Caller data)
  | req_verify alg key signature data =>
      verify w s0 (Local alg) (Local (VCryptoKey key))
        (Caller signature) (Caller data)
  | req_digest alg data => digest w s0 (Local alg) (Caller data)
  | req_importKey format keyData alg extractable keyUsages =>
      importKey w s0 (Local (VString format)) keyData (Local alg)
        (Local (VBoolean extractable)) (Local (VArray keyUsages))
  | req_exportKey format key =>
      exportKey w s0 (Local (VString format)) (Local (VCryptoKey key))
  | req_wrapKey format key wrappingKey wrapAlgorithm =>
      wrapKey w s0 s1 (Local (VString format)) (Local (VCryptoKey key))
        (Local (VCryptoKey wrappingKey)) (Local wrapAlgorithm)
  | req_unwrapKey format wrappedKey unwrappingKey unwrapAlgorithm
      unwrappedKeyAlgorithm extractable keyUsages =>
      unwrapKey w s0 s1 fuel (Local (VString format)) (Caller wrappedKey)
        (Local (VCryptoKey unwrappingKey)) (Local unwrapAlgorithm)
        (Local unwrappedKeyAlgorithm) (Local (VBoolean extractable))
        (Local (VArray keyUsages))
  end.

(** The key an operation checks before it calls the algorithm, with the
    usage it asks of that key. *)
Definition gate (q : request) : option (CryptoKey * string) :=
  match q with
  | req_encrypt _ key _ => Some (key, "encrypt")
  | req_decrypt _ key _ => Some (key, "decrypt")
  | req_sign _ key _ => Some (key, "sign")
  | req_verify _ key _ _ => Some (key, "verify")
  | req_wrapKey _ _ wrappingKey _ => Some (wrappingKey, "wrapKey")
  | req_unwrapKey _ _ unwrappingKey _ _ _ _ => Some (unwrappingKey, "unwrapKey")
  | _ => None
  end.

Definition to_option {A} (r : Error + A) : option A :=
  match r with
  | inl _ => None
  | inr a => Some a
  end.

(** The algorithm object bound to [normalizedAlgorithm] when the executor
    of the promise starts: defined when every normalization the method
    performs before creating its promise has succeeded. *)
Definition normalized (w : World) (q : request) : option Algorithm :=
  match q with
  | req_encrypt alg _ _ => to_option (normalize w op_encrypt alg)
  | req_decrypt alg _ _ => to_option (normalize w op_decrypt alg)
  | req_sign alg _ _ => to_option (normalize w op_sign alg)
  | req_verify alg _ _ _ => to_option (normalize w op_verify alg)
  | req_digest alg _ => to_option (normalize w op_digest alg)
  | req_importKey _ _ alg _ _ => to_option (normalize w op_importKey alg)
  | req_exportKey _ _ => None
  | req_wrapKey _ _ _ wrapAlgorithm =>
      to_option (normalize_or w op_wrapKey op_encrypt wrapAlgorithm)
  | req_unwrapKey _ _ _ unwrapAlgorithm _ _ _ =>
      match normalize_or w op_unwrapKey op_decrypt unwrapAlgorithm,
            normalize w op_importKey unwrapAlgorithm with
      | inr a, inr _ => Some a
      | _, _ => None
      end
  end.

(** The two errors of the key check, as each method words them. *)
Definition name_mismatch (q : request) : Error :=
  mkError InvalidAccessError
    match q with
    | req_wrapKey _ _ _ _ =>
        "NormalizedAlgorthm name must be same as wrappingKey algorithm name"
    | req_unwrapKey _ _ _ _ _ _ _ =>
        "NormalizedAlgorthm name must be same as unwrappingKey algorithm name"
    | _ => "Algorithm does not match key"
    end.

Definition missing_usage (q : request) : Error :=
  mkError InvalidAccessError
    match q with
    | req_wrapKey _ _ _ _ => "Wrapping key usages must include " ++ quoted "wrapKey"
    | req_unwrapKey _ _ _ _ _ _ _ =>
        "Unwrapping key usages must include " ++ quoted "unwrapKey"
    | req_encrypt _ _ _ => "Key usages must include " ++ quoted "encrypt"
    | req_decrypt _ _ _ => "Key usages must include " ++ quoted "decrypt"
    | req_sign _ _ _ => "Key usages must include " ++ quoted "sign"
    | _ => "Key usages must include " ++ quoted "verify"
    end.

(** The error of the extractability check. *)
Definition not_extractable : Error :=
  mkError InvalidAccessError "Key is not extractable".

(** ** Observations on a trace *)

(** The calls made into algorithm modules, in order. *)
Definition invocations (tr : list event)
    : list (Algorithm * Operation * list jsval) :=
  flat_map (fun ev =>
    match ev with
    | Invoke a m args => [(a, m, args)]
    | _ => []
    end) tr.

(** The public methods of the dispatcher that were entered, in order. *)
Definition entered (tr : list event) : list Operation :=
  flat_map (fun ev =>
    match ev with
    | Enter op => [op]
    | _ => []
    end) tr.

Definition is_local (x : jsval) : bool :=
  match x with
  | Local _ => true
  | Caller _ => false
  end.

(** [importKey] touches the key material only under the four formats it
    knows; the other methods have no such case. *)
Definition known_format (q : request) : bool :=
  match q with
  | req_importKey format keyData _ _ _ =>
      is_octet_format (Local (VString format))
      || is_string (Local (VString format)) "jwk"
      || is_local keyData
  | _ => true
  end.

(** The eventual state of the promise a run returned. *)
Definition settled {A} (r : outcome (promise A) * list event)
    : option (promise A) :=
  match fst r with
  | Val p => Some p
  | _ => None
  end.

(** ** A small registry to run the dispatcher on

    Two algorithms in the manner of the ones the repository registers:
    AES-GCM offers [encrypt] and [decrypt] but no [wrapKey]/[unwrapKey]
    (wrapping falls back on them), AES-KW offers [wrapKey] and [unwrapKey],
    SHA-256 offers [digest].  The primitives themselves are stand-ins: the
    theorems below never depend on what they compute. *)

Module Demo.

Definition AES_GCM : Algorithm :=
  mkAlgorithm "AES-GCM"
    [op_encrypt; op_decrypt; op_generateKey; op_importKey; op_exportKey] [].

Definition AES_KW : Algorithm :=
  mkAlgorithm "AES-KW"
    [op_wrapKey; op_unwrapKey; op_generateKey; op_importKey; op_exportKey] [].

Definition SHA_256 : Algorithm := mkAlgorithm "SHA-256" [op_digest] [].

(** PBKDF2 keys can be imported but there is no export of them. *)
Definition PBKDF2 : Algorithm :=
  mkAlgorithm "PBKDF2" [op_importKey; op_deriveBits] [].

Definition table : list Algorithm := [AES_GCM; AES_KW; SHA_256; PBKDF2].

Definition name_of (v : value) : string :=
  match v with
  | VString s => s
  | VDescriptor d => desc_name d
  | _ => "undefined"
  end.

Definition needs_iv (a : Algorithm) (op : Operation) : bool :=
  (name a =? "AES-GCM")
  && (Operation_eqb op op_encrypt || Operation_eqb op op_decrypt).

Definition normalize (op : Operation) (v : value) : Error + Algorithm :=
  match find (fun a => name a =? name_of v) table with
  | Some a =>
      if has_method a op then
        if needs_iv a op && negb (has_member v "iv")
        then inl (mkError SyntaxError "iv is required")
        else inr a
      else inl (mkError NotSupportedError (name_of v))
  | None => inl (mkError NotSupportedError (name_of v))
  end.

Definition registered (op : Operation) (n : string) : bool :=
  match find (fun a => name a =? n) table with
  | Some a => has_method a op
  | None => false
  end.

(** The stand-in cipher: a one-octet tag in front of the plaintext. *)
Definition seal (bs : octets) : octets := xff :: bs.

Definition open (bs : octets) : Error + value :=
  match bs with
  | xff :: rest => inr (VBytes rest)
  | _ => inl (mkError OperationError "authentication failed")
  end.

Definition perform (a : Algorithm) (m : Operation) (args : list value)
    : Error + value :=
  match m, args with
  | op_encrypt, [_; VCryptoKey _; VBytes bs]
  | op_wrapKey, [_; VCryptoKey _; VBytes bs] => inr (VBytes (seal bs))
  | op_decrypt, [_; VCryptoKey _; VBytes bs]
  | op_unwrapKey, [_; VCryptoKey _; VBytes bs] => open bs
  | op_digest, [_; VBytes bs] => inr (VBytes (rev bs))
  | op_exportKey, [VString "raw"; VCryptoKey k] => inr (VBytes (handle k))
  | op_exportKey, [VString "jwk"; VCryptoKey k] =>
      inr (VJsonWebKey (mkJsonWebKey "oct" [("alg", name (algorithm k))]))
  | _, _ => inl (mkError NotSupportedError (name a))
  end.

Definition perform_importKey (a : Algorithm) (args : list value)
    : Error + CryptoKey :=
  match args with
  | [VString "raw"; VBytes (b :: bs); _; VBoolean e; VArray us] =>
      inr (mkCryptoKey secret e a us (b :: bs))
  | [VString "jwk"; VJsonWebKey j; _; VBoolean e; VArray us] =>
      if kty j =? "oct" then inr (mkCryptoKey secret e a us [])
      else inl (mkError DataError "kty must be oct")
  | _ => inl (mkError DataError "bad key material")
  end.

Definition JsonWebKey_new (v : value) : Error + JsonWebKey :=
  match v with
  | VJsonWebKey j => inr j
  | VObject fields =>
      inr (mkJsonWebKey
             match find (fun p => fst p =? "kty") fields with
             | Some p => snd p
             | None => "undefined"
             end fields)
  | _ => inr (mkJsonWebKey "undefined" [])
  end.

Definition recognized : list string :=
  ["encrypt"; "decrypt"; "sign"; "verify"; "deriveKey"; "deriveBits";
   "wrapKey"; "unwrapKey"].

Definition recognizedKeyUsages_normalize (v : value) : Error + list string :=
  match v with
  | VArray us =>
      if forallb (fun u => existsb (String.eqb u) recognized) us
      then inr (nodup string_dec us)
      else inl (mkError SyntaxError "unknown usage")
  | _ => inl (mkError TypeError "usages must be an array")
  end.

Definition stringify_encode (v : value) : value :=
  match v with
  | VJsonWebKey j => VBytes (list_byte_of_string (kty j))
  | _ => VBytes []
  end.

Definition decode_parse (v : value) : Error + value :=
  match v with
  | VBytes (b :: bs) =>
      inr (VObject [("kty", string_of_list_byte (b :: bs))])
  | _ => inl (mkError SyntaxError "Unexpected end of JSON input")
  end.

Definition Uint8Array_new (v : value) : octets :=
  match v with
  | VBytes bs => bs
  | _ => []
  end.

Definition world : World :=
  mkWorld normalize registered perform perform_importKey JsonWebKey_new
    recognizedKeyUsages_normalize stringify_encode decode_parse Uint8Array_new.

(** The key of the example at the end of the source file, and variants. *)
Definition key_with (us : list string) : CryptoKey :=
  mkCryptoKey secret true AES_GCM us [x63; x4c; xed].

Definition key : CryptoKey :=
  key_with ["encrypt"; "decrypt"; "wrapKey"; "unwrapKey"].

(** The same key imported with [extractable = false]. *)
Definition locked_key : CryptoKey :=
  mkCryptoKey secret false AES_GCM ["encrypt"; "decrypt"] [x63; x4c; xed].

Definition kw_key : CryptoKey :=
  mkCryptoKey secret true AES_KW ["wrapKey"; "unwrapKey"] [x01; x02].

Definition pbkdf2_key : CryptoKey :=
  mkCryptoKey secret false PBKDF2 ["deriveBits"] [x70; x77].

Definition gcm (members : list (string * octets)) : value :=
  VDescriptor (mkDescriptor "AES-GCM" members).

Definition iv : list (string * octets) := [("iv", [x00; x01; x02; x03])].

(** The caller's buffers: buffer 0 holds a sealed raw key, buffer 1 is
    empty, buffer 2 holds octets that do not open. *)
Definition buffers : store :=
  fun r =>
    match r with
    | 0 => [xff; x0a; x0b]
    | 1 => []
    | _ => [x00; x01]
    end.

Definition overwritten : store := fun _ => [x00].

(** A caller's buffer holding what [wrapKey] makes of [key] under the
    raw format: the sealed handle. *)
Definition wrapped : store := fun _ => xff :: handle key.

(** A registry that can also generate keys: AES-GCM a secret key, ECDSA a
    pair whose private key signs and whose public key verifies. *)
Definition ECDSA : Algorithm :=
  mkAlgorithm "ECDSA"
    [op_sign; op_verify; op_generateKey; op_importKey; op_exportKey] [].

Definition normalize_gen (op : Operation) (v : value) : Error + Algorithm :=
  if (name_of v =? "ECDSA") && has_method ECDSA op then inr ECDSA
  else normalize op v.

Definition keep (wanted us : list string) : list string :=
  filter (fun u => existsb (String.eqb u) wanted) us.

Definition perform_gen (a : Algorithm) (m : Operation) (args : list value)
    : Error + value :=
  match m, args with
  | op_generateKey, [_; VBoolean e; VArray us] =>
      if name a =? "ECDSA" then
        inr (VCryptoKeyPair
               (mkCryptoKey public true a (keep ["verify"] us) [x04])
               (mkCryptoKey private e a (keep ["sign"] us) [x05]))
      else inr (VCryptoKey (mkCryptoKey secret e a us [x10; x20]))
  | op_sign, [VCryptoKey _; VBytes bs] => inr (VBytes (rev bs))
  | op_verify, [VCryptoKey _; VBytes sg; VBytes bs] =>
      inr (VBoolean (if list_eq_dec Byte.byte_eq_dec sg (rev bs)
                     then true else false))
  | _, _ => perform a m args
  end.

Definition world_gen : World :=
  mkWorld normalize_gen registered perform_gen perform_importKey
    JsonWebKey_new recognizedKeyUsages_normalize stringify_encode
    decode_parse Uint8Array_new.

Definition signing_key : CryptoKey :=
  mkCryptoKey private false ECDSA ["sign"] [x05].

End Demo.

(** ** Vocabulary for the statements about whole operations *)

(** The public method a request calls. *)
Definition method_of (q : request) : Operation :=
  match q with
  | req_encrypt _ _ _ => op_encrypt
  | req_decrypt _ _ _ => op_decrypt
  | req_sign _ _ _ => op_sign
  | req_verify _ _ _ _ => op_verify
  | req_digest _ _ => op_digest
  | req_importKey _ _ _ _ _ => op_importKey
  | req_exportKey _ _ => op_exportKey
  | req_wrapKey _ _ _ _ => op_wrapKey
  | req_unwrapKey _ _ _ _ _ _ _ => op_unwrapKey
  end.

(** [wrapKey] and [unwrapKey] chain promises; the other methods settle
    theirs in the executor. *)
Definition composite (q : request) : bool :=
  match q with
  | req_wrapKey _ _ _ _ | req_unwrapKey _ _ _ _ _ _ _ => true
  | _ => false
  end.

Definition error_of {A} (r : Error + A) : option Error :=
  match r with
  | inl e => Some e
  | inr _ => None
  end.

(** The [Error] with which a method returns [Promise.reject] before it
    creates a promise of its own: the result of the last normalization it
    tried. *)
Definition normalization_error (w : World) (q : request) : option Error :=
  match q with
  | req_encrypt alg _ _ => error_of (normalize w op_encrypt alg)
  | req_decrypt alg _ _ => error_of (normalize w op_decrypt alg)
  | req_sign alg _ _ => error_of (normalize w op_sign alg)
  | req_verify alg _ _ _ => error_of (normalize w op_verify alg)
  | req_digest alg _ => error_of (normalize w op_digest alg)
  | req_importKey _ _ alg _ _ => error_of (normalize w op_importKey alg)
  | req_exportKey _ _ => None
  | req_wrapKey _ _ _ wrapAlgorithm =>
      error_of (normalize_or w op_wrapKey op_encrypt wrapAlgorithm)
  | req_unwrapKey _ _ _ unwrapAlgorithm _ _ _ =>
      match normalize_or w op_unwrapKey op_decrypt unwrapAlgorithm with
      | inl e => Some e
      | inr _ => error_of (normalize w op_importKey unwrapAlgorithm)
      end
  end.

(** The arguments [encrypt], [decrypt], [sign] and [verify] hand to the
    method of the same name once the key has passed: the descriptor as the
    caller gave it (for [encrypt] and [decrypt] only), the key, and the
    copies of the octet inputs. *)
Definition module_arguments (s0 : store) (q : request) : option (list value) :=
  match q with
  | req_encrypt alg key data
  | req_decrypt alg key data => Some [alg; VCryptoKey key; VBytes (s0 data)]
  | req_sign _ key data => Some [VCryptoKey key; VBytes (s0 data)]
  | req_verify _ key signature data =>
      Some [VCryptoKey key; VBytes (s0 signature); VBytes (s0 data)]
  | _ => None
  end.

(** The promise a value or an exception of a module settles. *)
Definition settled_by (r : Error + value) : promise value :=
  match r with
  | inl e => Rejected e
  | inr v => Resolved v
  end.

(** The check [generateKey] makes on what the module generated. *)
Definition acceptable (v : value) : bool :=
  match v with
  | VCryptoKey key => negb (restricted (type key) && emptyUsages (usages key))
  | VCryptoKeyPair _ privateKey => negb (emptyUsages (usages privateKey))
  | _ => true
  end.

(** [result.extractable = extractable; result.usages = usages] *)
Definition reassigned (result : CryptoKey) (extractable : bool)
    (usages : list string) : CryptoKey :=
  mkCryptoKey (type result) extractable (algorithm result) usages
    (handle result).

(** The octets [wrapKey] hands to the wrapping method for an exported key:
    the export itself under raw, pkcs8 and spki, its JSON text under jwk,
    and [new Uint8Array(undefined)] under any other format. *)
Definition wrapped_octets (w : World) (format : string) (exportedKey : value)
    : octets :=
  Uint8Array_new w
    (if is_octet_format (Local (VString format)) then exportedKey
     else if is_string (Local (VString format)) "jwk"
          then stringify_encode w exportedKey
          else VUndefined).

(** The method [wrapKey] calls on the normalized algorithm. *)
Definition wrapping_method (a : Algorithm) : option Operation :=
  if has_method a op_wrapKey then Some op_wrapKey
  else if has_method a op_encrypt then Some op_encrypt
  else None.

(** Values that have a [slice] method. *)
Definition sliceable (v : value) : bool :=
  match v with
  | VBytes _ | VArray _ | VString _ => true
  | _ => false
  end.

(** The key material [importKey] hands to the algorithm: under raw, pkcs8
    and spki a copy of the data, unless the data is a [JsonWebKey] or
    cannot be copied; under jwk the data wrapped by [new JsonWebKey]; under
    any other format the data as it is. *)
Definition key_material (w : World) (s0 : store) (format : string)
    (keyData : jsval) : option value :=
  if is_octet_format (Local (VString format)) then
    if instanceof_JsonWebKey keyData then None
    else match keyData with
         | Caller r => Some (VBytes (s0 r))
         | Local v => if sliceable v then Some v else None
         end
  else if is_string (Local (VString format)) "jwk" then
    match JsonWebKey_new w (deref s0 keyData) with
    | inl _ => None
    | inr j => Some (VJsonWebKey j)
    end
  else Some (deref s0 keyData).

(** * Properties *)

(** ** Auxiliary facts *)

Lemma includes_false (us : list string) (u : string) :
  ~ In u us -> includes us u = false.
Proof.
  intros H. unfold includes.
  destruct (existsb (String.eqb u) us) eqn:E; [|reflexivity].
  apply existsb_exists in E. destruct E as [x [Hin Heq]].
  apply String.eqb_eq in Heq. subst. contradiction.
Qed.

Lemma includes_true (us : list string) (u : string) :
  In u us -> includes us u = true.
Proof.
  intros H. unfold includes. apply existsb_exists.
  exists u. split; [assumption | apply String.eqb_refl].
Qed.

Lemma to_option_Some {A} (r : Error + A) (a : A) :
  to_option r = Some a -> r = inr a.
Proof. destruct r; simpl; congruence. Qed.

(** What [normalized] says about the two normalizations of [unwrapKey]. *)
Lemma normalized_unwrapKey w format wrappedKey unwrappingKey unwrapAlgorithm
    unwrappedKeyAlgorithm extractable keyUsages a :
  normalized w (req_unwrapKey format wrappedKey unwrappingKey unwrapAlgorithm
                  unwrappedKeyAlgorithm extractable keyUsages) = Some a ->
  normalize_or w op_unwrapKey op_decrypt unwrapAlgorithm = inr a /\
  exists b, normalize w op_importKey unwrapAlgorithm = inr b.
Proof.
  simpl.
  destruct (normalize_or w op_unwrapKey op_decrypt unwrapAlgorithm);
    [discriminate|].
  destruct (normalize w op_importKey unwrapAlgorithm) as [|b]; [discriminate|].
  intros H. injection H as ->. eauto.
Qed.

(** Unfolds a run of the dispatcher down to the monad. *)
Ltac unfold_run :=
  cbv [run dispatch encrypt decrypt sign verify digest importKey exportKey
       wrapKey wrapKey_executor unwrapKey call call_importKey new_Promise then_ catch_
       try_catch bind ret throw throw_if emit settle resolve reject lift
       slice key_algorithm_name key_algorithm key_usages extractable_is_false
       as_boolean as_array deref map trace cell fst snd].

(** Splits a goal on the scrutinees of its [match]es, innermost first. *)
Ltac innermost x :=
  lazymatch x with
  | context [match ?y with _ => _ end] => innermost y
  | _ => destruct x eqn:?
  end.

Ltac split_cases :=
  repeat (cbn beta iota zeta;
          match goal with
          | |- context [match ?x with _ => _ end] => innermost x
          end).

(** ** Key-usage gate *)

(** C1. For each of [encrypt], [decrypt], [sign], [verify], [wrapKey] and
    [unwrapKey]: when the normalizations the method performs succeed and the
    usage the operation requires is not among the usages of the key it
    checks, the returned promise is rejected with an [InvalidAccessError]
    and no method of any algorithm module has been called. *)
Theorem missing_usage_rejects :
  forall w s0 s1 fuel q key u a,
    gate q = Some (key, u) ->
    normalized w q = Some a ->
    ~ In u (usages key) ->
    exists e tr,
      run (dispatch w s0 s1 (S fuel) q) = (Val (Rejected e), tr) /\
      error_name e = InvalidAccessError /\
      invocations tr = [].
Proof.
  intros w s0 s1 fuel q key u a Hgate Hnorm Hu.
  apply includes_false in Hu.
  destruct q; simpl in Hgate; try discriminate;
    injection Hgate as <- <-.
  1-5: apply to_option_Some in Hnorm.
  6: apply normalized_unwrapKey in Hnorm; destruct Hnorm as [Hnorm [b Hb]].
  all: unfold_run; simpl deref in *.
  all: rewrite ?Hnorm, ?Hb.
  all: destruct (name a =? name (algorithm _)); simpl; rewrite ?Hu; simpl;
    eexists; eexists; (split; [reflexivity | split; reflexivity]).
Qed.

(** The usage gate of the specification's second scenario: a key imported
    with usages [encrypt] only is refused by [decrypt]. *)
Lemma missing_usage_rejects_witness :
  exists e tr,
    run (dispatch Demo.world Demo.buffers Demo.overwritten 1
           (req_decrypt (Demo.gcm Demo.iv) (Demo.key_with ["encrypt"]) 0))
      = (Val (Rejected e), tr) /\
    error_name e = InvalidAccessError /\
    invocations tr = [].
Proof.
  apply (@missing_usage_rejects Demo.world Demo.buffers Demo.overwritten 0
           (req_decrypt (Demo.gcm Demo.iv) (Demo.key_with ["encrypt"]) 0)
           (Demo.key_with ["encrypt"]) "decrypt" Demo.AES_GCM).
  - reflexivity.
  - reflexivity.
  - simpl. intros [H | []]. discriminate H.
Defined.

(** When the names agree, a missing usage is reported by [missing_usage]. *)
Lemma usage_check_error :
  forall w s0 s1 fuel q key u a,
    gate q = Some (key, u) ->
    normalized w q = Some a ->
    name a = name (algorithm key) ->
    ~ In u (usages key) ->
    settled (run (dispatch w s0 s1 (S fuel) q)) = Some (Rejected (missing_usage q)).
Proof.
  intros w s0 s1 fuel q key u a Hgate Hnorm Hname Hu.
  apply includes_false in Hu.
  destruct q; simpl in Hgate; try discriminate;
    injection Hgate as <- <-.
  1-5: apply to_option_Some in Hnorm.
  6: apply normalized_unwrapKey in Hnorm; destruct Hnorm as [Hnorm [b Hb]].
  all: unfold settled; unfold_run; simpl deref in *.
  all: rewrite ?Hnorm, ?Hb, Hname, String.eqb_refl; simpl; rewrite ?Hu;
    reflexivity.
Qed.

(** C9. In [encrypt], [decrypt], [sign], [verify], [wrapKey] and
    [unwrapKey] the comparison of the algorithm names comes before the usage
    check: for a key whose algorithm name differs from the name of the
    normalized algorithm and which also lacks the required usage, the
    promise is rejected with the name-mismatch error, which is not the
    missing-usage error. *)
Theorem name_check_precedes_usage_check :
  forall w s0 s1 fuel q key u a,
    gate q = Some (key, u) ->
    normalized w q = Some a ->
    name a <> name (algorithm key) ->
    ~ In u (usages key) ->
    settled (run (dispatch w s0 s1 (S fuel) q)) = Some (Rejected (name_mismatch q)) /\
    name_mismatch q <> missing_usage q.
Proof.
  intros w s0 s1 fuel q key u a Hgate Hnorm Hname Hu.
  apply String.eqb_neq in Hname.
  split.
  - destruct q; simpl in Hgate; try discriminate;
      injection Hgate as <- <-.
    1-5: apply to_option_Some in Hnorm.
    6: apply normalized_unwrapKey in Hnorm; destruct Hnorm as [Hnorm [b Hb]].
    all: unfold settled; unfold_run; simpl deref in *.
    all: rewrite ?Hnorm, ?Hb, Hname; reflexivity.
  - destruct q; simpl in Hgate; try discriminate; intros H; discriminate H.
Qed.

Lemma name_check_precedes_usage_check_witness :
  settled (run (dispatch Demo.world Demo.buffers Demo.overwritten 1
                  (req_wrapKey "raw" Demo.key Demo.pbkdf2_key (Demo.gcm Demo.iv))))
    = Some (Rejected (mkError InvalidAccessError
         "NormalizedAlgorthm name must be same as wrappingKey algorithm name")).
Proof.
  apply (@name_check_precedes_usage_check Demo.world Demo.buffers
           Demo.overwritten 0
           (req_wrapKey "raw" Demo.key Demo.pbkdf2_key (Demo.gcm Demo.iv))
           Demo.pbkdf2_key "wrapKey" Demo.AES_GCM).
  - reflexivity.
  - reflexivity.
  - simpl. intros H. discriminate H.
  - simpl. intros [H | []]. discriminate H.
Defined.

(** ** Extractability gate *)

(** C2, as it holds. For a key with [extractable = false] whose algorithm
    name is registered for [exportKey], and for every format: [exportKey]
    rejects with the [InvalidAccessError] "Key is not extractable" without
    calling the algorithm, and so does [wrapKey] of that key under a
    wrapping algorithm that normalizes and a wrapping key that passes its
    check. *)
Theorem not_extractable_rejects :
  forall w s0 s1 fuel format key,
    extractable key = false ->
    registered w op_exportKey (name (algorithm key)) = true ->
    run (dispatch w s0 s1 fuel (req_exportKey format key))
      = (Val (Rejected not_extractable), [Enter op_exportKey]) /\
    forall wrappingKey wrapAlgorithm a,
      normalized w (req_wrapKey format key wrappingKey wrapAlgorithm) = Some a ->
      name a = name (algorithm wrappingKey) ->
      In "wrapKey" (usages wrappingKey) ->
      run (dispatch w s0 s1 fuel (req_wrapKey format key wrappingKey wrapAlgorithm))
        = (Val (Rejected not_extractable), [Enter op_wrapKey]).
Proof.
  intros w s0 s1 fuel format key Hext Hreg. split.
  - unfold_run. rewrite Hreg, Hext. reflexivity.
  - intros wrappingKey wrapAlgorithm a Hnorm Hname Hu.
    apply to_option_Some in Hnorm. apply includes_true in Hu.
    unfold_run. simpl deref. rewrite Hnorm, Hname, String.eqb_refl. simpl.
    rewrite Hu, Hreg, Hext. reflexivity.
Qed.

(** The extractability gate of the specification's third scenario. *)
Lemma not_extractable_rejects_witness :
  run (dispatch Demo.world Demo.buffers Demo.overwritten 1
         (req_exportKey "jwk" Demo.locked_key))
    = (Val (Rejected not_extractable), [Enter op_exportKey]).
Proof.
  apply (@not_extractable_rejects Demo.world Demo.buffers Demo.overwritten 1
           "jwk" Demo.locked_key); reflexivity.
Defined.

(** C2, as stated, fails: the registration of the key's algorithm for
    [exportKey] is checked before [extractable].  A PBKDF2 key, which is
    never extractable and has no export, is refused by [exportKey] and by
    [wrapKey] with a [NotSupportedError]. *)
Lemma not_extractable_unregistered :
  ~ (forall w s0 s1 fuel format key,
       extractable key = false ->
       exists e tr,
         run (dispatch w s0 s1 fuel (req_exportKey format key))
           = (Val (Rejected e), tr) /\
         error_name e = InvalidAccessError) /\
  ~ (forall w s0 s1 fuel format key wrappingKey wrapAlgorithm a,
       extractable key = false ->
       normalized w (req_wrapKey format key wrappingKey wrapAlgorithm) = Some a ->
       name a = name (algorithm wrappingKey) ->
       In "wrapKey" (usages wrappingKey) ->
       exists e tr,
         run (dispatch w s0 s1 fuel
                (req_wrapKey format key wrappingKey wrapAlgorithm))
           = (Val (Rejected e), tr) /\
         error_name e = InvalidAccessError).
Proof.
  split; intros H.
  - destruct (H Demo.world Demo.buffers Demo.overwritten 1 "raw"
                Demo.pbkdf2_key eq_refl) as [e [tr [Hrun Hname]]].
    vm_compute in Hrun. injection Hrun as <- _. discriminate Hname.
  - destruct (H Demo.world Demo.buffers Demo.overwritten 1 "raw"
                Demo.pbkdf2_key Demo.key (Demo.gcm Demo.iv) Demo.AES_GCM
                eq_refl eq_refl eq_refl (or_intror (or_intror (or_introl eq_refl))))
      as [e [tr [Hrun Hname]]].
    vm_compute in Hrun. injection Hrun as <- _. discriminate Hname.
Qed.

(** ** Normalization of the wrapping algorithm *)

(** C6, as it holds. [wrapKey] normalizes [wrapAlgorithm] under [wrapKey]
    and proceeds with the result when there is one, whatever the
    normalization under [encrypt] would give; only when the first fails
    does it normalize under [encrypt] and proceed with that result; when
    both fail, the promise is rejected with the error of the [encrypt]
    normalization and nothing else happens. *)
Theorem wrapKey_normalization :
  forall w s0 s1 fuel format key wrappingKey wrapAlgorithm,
    let q := req_wrapKey format key wrappingKey wrapAlgorithm in
    let proceed a :=
      emit (Enter op_wrapKey) ;;
      new_Promise
        (wrapKey_executor w s0 s1 a (Local (VString format))
           (Local (VCryptoKey key)) (Local (VCryptoKey wrappingKey))
           (Local wrapAlgorithm)) in
    (forall a,
       normalize w op_wrapKey wrapAlgorithm = inr a ->
       dispatch w s0 s1 fuel q = proceed a) /\
    (forall e1 a,
       normalize w op_wrapKey wrapAlgorithm = inl e1 ->
       normalize w op_encrypt wrapAlgorithm = inr a ->
       dispatch w s0 s1 fuel q = proceed a) /\
    (forall e1 e2,
       normalize w op_wrapKey wrapAlgorithm = inl e1 ->
       normalize w op_encrypt wrapAlgorithm = inl e2 ->
       run (dispatch w s0 s1 fuel q) = (Val (Rejected e2), [Enter op_wrapKey])).
Proof.
  intros w s0 s1 fuel format key wrappingKey wrapAlgorithm q proceed.
  unfold q, proceed, dispatch, wrapKey, normalize_or. simpl deref.
  repeat split.
  - intros a H. rewrite H. reflexivity.
  - intros e1 a H1 H2. rewrite H1, H2. reflexivity.
  - intros e1 e2 H1 H2. rewrite H1, H2. reflexivity.
Qed.

(** A descriptor naming AES-GCM without its [iv]: not registered for
    [wrapKey], malformed for [encrypt]. *)
Lemma wrapKey_normalization_witness :
  run (dispatch Demo.world Demo.buffers Demo.overwritten 1
         (req_wrapKey "jwk" Demo.key Demo.key (Demo.gcm [])))
    = (Val (Rejected (mkError SyntaxError "iv is required")), [Enter op_wrapKey]).
Proof.
  apply (@wrapKey_normalization Demo.world Demo.buffers Demo.overwritten 1
           "jwk" Demo.key Demo.key (Demo.gcm []))
    with (e1 := mkError NotSupportedError "AES-GCM");
    reflexivity.
Defined.

(** C6, as stated, fails: when both normalizations fail, the error that
    rejects the promise is not the one of the [wrapKey] normalization. *)
Lemma wrapKey_surfaces_fallback_error :
  ~ (forall w s0 s1 fuel format key wrappingKey wrapAlgorithm e1 e2,
       normalize w op_wrapKey wrapAlgorithm = inl e1 ->
       normalize w op_encrypt wrapAlgorithm = inl e2 ->
       settled (run (dispatch w s0 s1 fuel
                       (req_wrapKey format key wrappingKey wrapAlgorithm)))
         = Some (Rejected e1)).
Proof.
  intros H.
  specialize (H Demo.world Demo.buffers Demo.overwritten 1 "jwk" Demo.key
                Demo.key (Demo.gcm [])
                (mkError NotSupportedError "AES-GCM")
                (mkError SyntaxError "iv is required") eq_refl eq_refl).
  vm_compute in H. discriminate H.
Qed.

(** ** digest *)

(** C10. [digest] checks nothing: once its descriptor normalizes, the
    [digest] method of the algorithm is called on the descriptor and on the
    copy of the data, that call is the only event, and the promise settles
    with what the call returned or threw.  An [InvalidAccessError] can
    therefore reject the promise only if the module itself threw it. *)
Theorem digest_unguarded :
  forall w s0 s1 fuel alg data a,
    normalize w op_digest alg = inr a ->
    let q := req_digest alg data in
    let args := [alg; VBytes (s0 data)] in
    (has_method a op_digest = true ->
     run (dispatch w s0 s1 fuel q)
       = (Val match perform w a op_digest args with
              | inl e => Rejected e
              | inr v => Resolved v
              end,
          [Enter op_digest; Invoke a op_digest (map Local args)])) /\
    (forall e,
       settled (run (dispatch w s0 s1 fuel q)) = Some (Rejected e) ->
       error_name e = InvalidAccessError ->
       perform w a op_digest args = inl e).
Proof.
  intros w s0 s1 fuel alg data a Hnorm q args. unfold q, args.
  split.
  - intros Hm. unfold_run. rewrite Hnorm, Hm. simpl.
    destruct (perform w a op_digest _); reflexivity.
  - intros e. unfold settled. unfold_run. rewrite Hnorm.
    destruct (has_method a op_digest); simpl.
    + destruct (perform w a op_digest _); simpl; intros H; inversion H.
      reflexivity.
    + intros H. inversion H. discriminate.
Qed.

Lemma digest_unguarded_witness :
  run (dispatch Demo.world Demo.buffers Demo.overwritten 1
         (req_digest (VString "SHA-256") 0))
    = (Val (Resolved (VBytes [x0b; x0a; xff])),
       [Enter op_digest;
        Invoke Demo.SHA_256 op_digest
          [Local (VString "SHA-256"); Local (VBytes [xff; x0a; x0b])]]).
Proof.
  apply (@digest_unguarded Demo.world Demo.buffers Demo.overwritten 1
           (VString "SHA-256") 0 Demo.SHA_256); reflexivity.
Defined.

(** ** Isolation from later changes to the caller's buffers *)

(** A well-typed request always gets a promise back: no exception leaves
    the method and two levels of calls are all [unwrapKey] ever makes. *)
Lemma dispatch_returns_promise :
  forall w s0 s1 fuel q,
    exists p tr, run (dispatch w s0 s1 (S (S fuel)) q) = (Val p, tr).
Proof.
  intros w s0 s1 fuel q.
  destruct q; unfold_run.
  all: split_cases.
  all: eauto.
Qed.

(** The reactions of the promises read none of the caller's buffers. *)
Lemma dispatch_ignores_later_store :
  forall w s0 s1 s1' fuel q,
    run (dispatch w s0 s1 fuel q) = run (dispatch w s0 s1' fuel q).
Proof.
  intros w s0 s1 s1' fuel q.
  destruct q; try reflexivity.
  destruct fuel as [|[|fuel]]; reflexivity.
Qed.

(** [unwrapKey] never calls itself more than once: a depth of two gives
    the result of any greater depth. *)
Lemma two_levels_suffice :
  forall w s0 s1 fuel q,
    run (dispatch w s0 s1 (S (S fuel)) q) = run (dispatch w s0 s1 2 q).
Proof.
  intros w s0 s1 fuel q.
  destruct q; reflexivity.
Qed.

(** No module is ever handed a buffer of the caller: the octets it gets
    are in a copy. *)
Lemma modules_receive_copies :
  forall w s0 s1 fuel q a m args,
    known_format q = true ->
    In (Invoke a m args) (snd (run (dispatch w s0 s1 (S (S fuel)) q))) ->
    forallb is_local args = true.
Proof.
  intros w s0 s1 fuel q a m args.
  destruct q; unfold_run; cbv [known_format is_local];
    split_cases; simpl; intros Hk Hin;
    repeat (destruct Hin as [Hin | Hin]; [try discriminate Hin|]);
    try contradiction; try discriminate Hk;
    injection Hin as <- <- <-; reflexivity.
Qed.

(** C7. Every public method reads its octet inputs while it runs, through
    the copy [slice] makes, and never afterwards: the promise it returns,
    its eventual state and the calls made into the algorithm modules are
    fixed by what the caller's buffers hold during the call ([s0]), and are
    the same whatever the buffers hold when the reactions run ([s1]); and
    the modules are passed copies only, never a buffer of the caller. *)
Theorem input_isolation :
  forall w s0 fuel q,
    exists p tr,
      (forall s1, run (dispatch w s0 s1 (S (S fuel)) q) = (Val p, tr)) /\
      (known_format q = true ->
       forall a m args, In (Invoke a m args) tr -> forallb is_local args = true).
Proof.
  intros w s0 fuel q.
  destruct (dispatch_returns_promise w s0 s0 fuel q) as [p [tr H]].
  exists p, tr. split.
  - intros s1. rewrite (dispatch_ignores_later_store w s0 s1 s0). exact H.
  - intros Hk a m args Hin.
    apply (@modules_receive_copies w s0 s0 fuel q a m args Hk).
    rewrite H. exact Hin.
Qed.

(** The wrapped key of the source's closing example, overwritten by the
    caller once [unwrapKey] has returned. *)
Lemma input_isolation_witness :
  exists p tr,
    run (dispatch Demo.world Demo.buffers Demo.buffers 2
           (req_unwrapKey "raw" 0 Demo.key (Demo.gcm Demo.iv) (Demo.gcm [])
              true ["encrypt"])) = (Val p, tr) /\
    run (dispatch Demo.world Demo.buffers Demo.overwritten 2
           (req_unwrapKey "raw" 0 Demo.key (Demo.gcm Demo.iv) (Demo.gcm [])
              true ["encrypt"])) = (Val p, tr) /\
    forall a m args, In (Invoke a m args) tr -> forallb is_local args = true.
Proof.
  destruct (input_isolation Demo.world Demo.buffers 0
              (req_unwrapKey "raw" 0 Demo.key (Demo.gcm Demo.iv) (Demo.gcm [])
                 true ["encrypt"])) as [p [tr [H1 H2]]].
  exists p, tr. split; [apply H1 | split; [apply H1 | apply H2; reflexivity]].
Defined.

(** What the module is handed by [encrypt] and, through [decrypt], by
    [unwrapKey]: the octets the buffer held during the call. *)
Lemma encrypt_passes_snapshot :
  forall w s0 s1 fuel alg key data a,
    normalize w op_encrypt alg = inr a ->
    name a = name (algorithm key) ->
    In "encrypt" (usages key) ->
    has_method a op_encrypt = true ->
    invocations (snd (run (dispatch w s0 s1 fuel (req_encrypt alg key data))))
      = [(a, op_encrypt,
          [Local alg; Local (VCryptoKey key); Local (VBytes (s0 data))])].
Proof.
  intros w s0 s1 fuel alg key data a Hn Hname Hu Hm.
  apply includes_true in Hu.
  unfold_run. rewrite Hn, Hname, String.eqb_refl. simpl.
  rewrite Hu, Hm. simpl.
  destruct (perform w a op_encrypt _); reflexivity.
Qed.

Lemma unwrapKey_passes_snapshot :
  forall w s0 s1 fuel format wrappedKey key unwrapAlgorithm
         unwrappedKeyAlgorithm extractable keyUsages a,
    let q := req_unwrapKey format wrappedKey key unwrapAlgorithm
               unwrappedKeyAlgorithm extractable keyUsages in
    normalized w q = Some a ->
    normalize w op_decrypt unwrapAlgorithm = inr a ->
    name a = name (algorithm key) ->
    In "unwrapKey" (usages key) ->
    In "decrypt" (usages key) ->
    has_method a op_unwrapKey = false ->
    has_method a op_decrypt = true ->
    exists rest,
      invocations (snd (run (dispatch w s0 s1 (S fuel) q)))
        = (a, op_decrypt,
           [Local unwrapAlgorithm; Local (VCryptoKey key);
            Local (VBytes (s0 wrappedKey))])
          :: rest.
Proof.
  intros w s0 s1 fuel format wrappedKey key unwrapAlgorithm
    unwrappedKeyAlgorithm extractable0 keyUsages a q Hn Hd Hname Hu Hu' Hw Hm.
  apply normalized_unwrapKey in Hn. destruct Hn as [Hn [b Hb]].
  apply includes_true in Hu. apply includes_true in Hu'.
  unfold q. unfold_run. simpl deref.
  rewrite Hn, Hb, Hd, Hname, String.eqb_refl. simpl.
  rewrite Hu, Hu', Hw, Hm. simpl.
  split_cases; simpl; rewrite ?rev_app_distr; simpl;
    unfold invocations; rewrite ?flat_map_app; simpl; eauto.
Qed.

(** ** unwrapKey: where the source departs from its specification *)

(** The second normalization of [unwrapKey] comes before its key check:
    when it fails, its error rejects the promise. *)
Lemma unwrapKey_import_normalization_fails :
  forall w s0 s1 fuel format wrappedKey key unwrapAlgorithm
         unwrappedKeyAlgorithm extractable keyUsages a e,
    normalize_or w op_unwrapKey op_decrypt unwrapAlgorithm = inr a ->
    normalize w op_importKey unwrapAlgorithm = inl e ->
    run (dispatch w s0 s1 (S fuel)
           (req_unwrapKey format wrappedKey key unwrapAlgorithm
              unwrappedKeyAlgorithm extractable keyUsages))
      = (Val (Rejected e), [Enter op_unwrapKey]).
Proof.
  intros w s0 s1 fuel format wrappedKey key unwrapAlgorithm
    unwrappedKeyAlgorithm extractable0 keyUsages a e Hn He.
  unfold_run. simpl deref. rewrite Hn, He. reflexivity.
Qed.

(** C3. The decryption step of [unwrapKey] does not call the algorithm
    module: it calls the dispatcher's own [decrypt].  For an unwrapping key
    whose usages are [unwrapKey] alone, that method's usage check refuses
    the key: the module's [decrypt] is never called and the promise of
    [unwrapKey] stays pending.  For an algorithm that has an [unwrapKey]
    method the dispatcher's [unwrapKey] is entered again, with its
    arguments out of place, and the module is not called either. *)
Theorem unwrapKey_reenters_dispatcher :
  run (dispatch Demo.world Demo.buffers Demo.buffers 2
         (req_unwrapKey "raw" 0 (Demo.key_with ["unwrapKey"])
            (Demo.gcm Demo.iv) (Demo.gcm []) true ["encrypt"]))
    = (Val Pending,
       [Enter op_unwrapKey; Enter op_decrypt;
        LogError (mkError InvalidAccessError
                    ("Key usages must include " ++ quoted "decrypt"))]) /\
  exists e,
    run (dispatch Demo.world Demo.buffers Demo.buffers 2
           (req_unwrapKey "raw" 0 Demo.kw_key (VString "AES-KW")
              (Demo.gcm []) true ["encrypt"]))
      = (Val Pending, [Enter op_unwrapKey; Enter op_unwrapKey; LogError e]).
Proof. split; [reflexivity | eexists; reflexivity]. Qed.

(** Whenever the key check of [unwrapKey] passes and the algorithm has a
    [decrypt] method but no [unwrapKey] method, the next thing that happens
    is an entry into the dispatcher's [decrypt]. *)
Lemma unwrapKey_enters_decrypt :
  forall w s0 s1 fuel format wrappedKey key unwrapAlgorithm
         unwrappedKeyAlgorithm extractable keyUsages a,
    let q := req_unwrapKey format wrappedKey key unwrapAlgorithm
               unwrappedKeyAlgorithm extractable keyUsages in
    normalized w q = Some a ->
    name a = name (algorithm key) ->
    In "unwrapKey" (usages key) ->
    has_method a op_unwrapKey = false ->
    has_method a op_decrypt = true ->
    exists rest,
      entered (snd (run (dispatch w s0 s1 (S fuel) q)))
        = op_unwrapKey :: op_decrypt :: rest.
Proof.
  intros w s0 s1 fuel format wrappedKey key unwrapAlgorithm
    unwrappedKeyAlgorithm extractable0 keyUsages a q Hn Hname Hu Hw Hm.
  apply normalized_unwrapKey in Hn. destruct Hn as [Hn [b Hb]].
  apply includes_true in Hu.
  unfold q. unfold_run. simpl deref.
  rewrite Hn, Hb, Hname, String.eqb_refl. simpl.
  rewrite Hu, Hw, Hm. simpl.
  split_cases; simpl; rewrite ?rev_app_distr; simpl;
    unfold entered; rewrite ?flat_map_app; simpl; eauto.
Qed.

(** Whenever the key check passes and the algorithm has an [unwrapKey]
    method, that method is not called: the dispatcher's [unwrapKey] is
    entered with the algorithm in the place of the format, the key in the
    place of the wrapped octets and the wrapped octets in the place of the
    key; that call fails, the failure is logged and the promise stays
    pending. *)
Lemma unwrapKey_method_never_called :
  forall w s0 s1 fuel format wrappedKey key unwrapAlgorithm
         unwrappedKeyAlgorithm extractable keyUsages a,
    let q := req_unwrapKey format wrappedKey key unwrapAlgorithm
               unwrappedKeyAlgorithm extractable keyUsages in
    normalized w q = Some a ->
    name a = name (algorithm key) ->
    In "unwrapKey" (usages key) ->
    has_method a op_unwrapKey = true ->
    exists e,
      run (dispatch w s0 s1 (S (S fuel)) q)
        = (Val Pending, [Enter op_unwrapKey; Enter op_unwrapKey; LogError e]).
Proof.
  intros w s0 s1 fuel format wrappedKey key unwrapAlgorithm
    unwrappedKeyAlgorithm extractable0 keyUsages a q Hn Hname Hu Hm.
  apply normalized_unwrapKey in Hn. destruct Hn as [Hn [b Hb]].
  apply includes_true in Hu.
  unfold q. unfold_run. simpl deref.
  rewrite Hn, Hb, Hname, String.eqb_refl. simpl.
  rewrite Hu, Hm. simpl.
  split_cases; simpl; eauto.
Qed.

(** C4. The descriptor [unwrapKey] normalizes under [importKey] is
    [unwrapAlgorithm].  With [unwrappedKeyAlgorithm] naming AES-KW the key
    is imported by the AES-GCM object all the same; with an
    [unwrappedKeyAlgorithm] that is not registered at all the promise is
    not rejected: the key is imported and the promise resolves. *)
Theorem unwrapKey_imports_under_unwrapAlgorithm :
  let imported :=
    VCryptoKey (mkCryptoKey secret true Demo.AES_GCM ["encrypt"] [x0a; x0b]) in
  let decrypted :=
    Invoke Demo.AES_GCM op_decrypt
      (map Local
         [Demo.gcm Demo.iv; VCryptoKey Demo.key; VBytes [xff; x0a; x0b]]) in
  run (dispatch Demo.world Demo.buffers Demo.buffers 2
         (req_unwrapKey "raw" 0 Demo.key (Demo.gcm Demo.iv)
            (VString "AES-KW") true ["encrypt"]))
    = (Val (Resolved imported),
       [Enter op_unwrapKey; Enter op_decrypt; decrypted;
        Invoke Demo.AES_GCM op_importKey
          (map Local
             [VString "raw"; VBytes [x0a; x0b]; VString "AES-KW";
              VBoolean true; VArray ["encrypt"]])]) /\
  normalize Demo.world op_importKey (VString "ZZZ")
    = inl (mkError NotSupportedError "ZZZ") /\
  run (dispatch Demo.world Demo.buffers Demo.buffers 2
         (req_unwrapKey "raw" 0 Demo.key (Demo.gcm Demo.iv)
            (VString "ZZZ") true ["encrypt"]))
    = (Val (Resolved imported),
       [Enter op_unwrapKey; Enter op_decrypt; decrypted;
        Invoke Demo.AES_GCM op_importKey
          (map Local
             [VString "raw"; VBytes [x0a; x0b]; VString "ZZZ";
              VBoolean true; VArray ["encrypt"]])]).
Proof. repeat split; reflexivity. Qed.

(** The result of [unwrapKey] never depends on how [unwrappedKeyAlgorithm]
    normalizes: the two worlds may differ on it at will. *)
Lemma unwrapKey_ignores_unwrappedKeyAlgorithm_normalization :
  forall w w' s0 s1 fuel format wrappedKey key unwrapAlgorithm
         unwrappedKeyAlgorithm extractable keyUsages,
    (forall op, normalize w' op unwrapAlgorithm = normalize w op unwrapAlgorithm) ->
    (forall op, normalize w' op VUndefined = normalize w op VUndefined) ->
    registered w' = registered w ->
    perform w' = perform w ->
    perform_importKey w' = perform_importKey w ->
    decode_parse w' = decode_parse w ->
    run (dispatch w' s0 s1 fuel
           (req_unwrapKey format wrappedKey key unwrapAlgorithm
              unwrappedKeyAlgorithm extractable keyUsages))
    = run (dispatch w s0 s1 fuel
             (req_unwrapKey format wrappedKey key unwrapAlgorithm
                unwrappedKeyAlgorithm extractable keyUsages)).
Proof.
  intros w w' s0 s1 fuel format wrappedKey key unwrapAlgorithm
    unwrappedKeyAlgorithm extractable0 keyUsages Hn Hu Hr Hp Hi Hd.
  destruct fuel as [|[|fuel]]; [reflexivity | |];
    unfold_run; unfold normalize_or; simpl deref;
    rewrite ?Hn, ?Hu, ?Hp, ?Hi, ?Hd; reflexivity.
Qed.

(** C5. Failures inside [unwrapKey] do not reject its promise: when the
    decryption fails (buffer 2 does not open), when the import fails (the
    stand-in imports no pkcs8), and when the imported secret key has no
    usages, the error is logged and the promise is left pending. *)
Theorem unwrapKey_swallows_errors :
  let unwrap format buffer keyUsages :=
    run (dispatch Demo.world Demo.buffers Demo.buffers 2
           (req_unwrapKey format buffer Demo.key (Demo.gcm Demo.iv)
              (Demo.gcm []) true keyUsages)) in
  let logged tr := match rev tr with ev :: _ => Some ev | [] => None end in
  (fst (unwrap "raw" 2 ["encrypt"]) = Val Pending /\
   logged (snd (unwrap "raw" 2 ["encrypt"]))
     = Some (LogError (mkError OperationError "authentication failed"))) /\
  (fst (unwrap "pkcs8" 0 ["encrypt"]) = Val Pending /\
   logged (snd (unwrap "pkcs8" 0 ["encrypt"]))
     = Some (LogError (mkError DataError "bad key material"))) /\
  (fst (unwrap "raw" 0 []) = Val Pending /\
   logged (snd (unwrap "raw" 0 []))
     = Some (LogError (mkError SyntaxError "Usages cannot be empty"))).
Proof. repeat split; reflexivity. Qed.

(** Once the key check of [unwrapKey] has passed and the algorithm has one
    of the two methods, the promise is never rejected, whatever fails. *)
Lemma unwrapKey_never_rejects_after_check :
  forall w s0 s1 fuel format wrappedKey key unwrapAlgorithm
         unwrappedKeyAlgorithm extractable keyUsages a e,
    let q := req_unwrapKey format wrappedKey key unwrapAlgorithm
               unwrappedKeyAlgorithm extractable keyUsages in
    normalized w q = Some a ->
    name a = name (algorithm key) ->
    In "unwrapKey" (usages key) ->
    has_method a op_unwrapKey || has_method a op_decrypt = true ->
    settled (run (dispatch w s0 s1 (S (S fuel)) q)) <> Some (Rejected e).
Proof.
  intros w s0 s1 fuel format wrappedKey key unwrapAlgorithm
    unwrappedKeyAlgorithm extractable0 keyUsages a e q Hn Hname Hu Hm.
  apply normalized_unwrapKey in Hn. destruct Hn as [Hn [b Hb]].
  apply includes_true in Hu.
  unfold q, settled. unfold_run. simpl deref.
  rewrite Hn, Hb, Hname, String.eqb_refl. simpl.
  rewrite Hu. simpl.
  destruct (has_method a op_unwrapKey); simpl in Hm; [|rewrite Hm];
    split_cases; simpl; discriminate.
Qed.

(** ** importKey: format against key material *)

(** With [raw], [pkcs8] or [spki] a JSON Web Key is refused with a
    [TypeError], be it an instance of [JsonWebKey] or an object literal. *)
Lemma importKey_octet_format_refuses_jwk :
  forall w s0 s1 fuel format keyData alg extractable keyUsages a,
    normalize w op_importKey alg = inr a ->
    format = "raw" \/ format = "pkcs8" \/ format = "spki" ->
    (exists j, keyData = Local (VJsonWebKey j)) \/
    (exists fields, keyData = Local (VObject fields)) ->
    exists e,
      run (dispatch w s0 s1 fuel
             (req_importKey format keyData alg extractable keyUsages))
        = (Val (Rejected e), [Enter op_importKey]) /\
      error_name e = TypeError.
Proof.
  intros w s0 s1 fuel format keyData alg extractable0 keyUsages a Hn Hf Hk.
  unfold_run. simpl deref. rewrite Hn.
  destruct Hf as [-> | [-> | ->]];
    destruct Hk as [[j ->] | [fields ->]]; simpl;
    eexists; split; reflexivity.
Qed.

(** C8. With [jwk] an octet buffer is not refused: it is wrapped by
    [new JsonWebKey], the check that follows sees an instance of
    [JsonWebKey], and the algorithm's [importKey] is called on it; the
    rejection is the [DataError] of the module, not a [TypeError]. *)
Theorem importKey_jwk_accepts_buffer :
  run (dispatch Demo.world Demo.buffers Demo.buffers 2
         (req_importKey "jwk" (Caller 0) (Demo.gcm []) true ["encrypt"]))
    = (Val (Rejected (mkError DataError "kty must be oct")),
       [Enter op_importKey;
        Invoke Demo.AES_GCM op_importKey
          (map Local
             [VString "jwk"; VJsonWebKey (mkJsonWebKey "undefined" []);
              Demo.gcm []; VBoolean true; VArray ["encrypt"]])]).
Proof. reflexivity. Qed.

(** Whatever the material, once [new JsonWebKey] has returned the module's
    [importKey] is called: the [TypeError] of the check is unreachable. *)
Lemma importKey_jwk_check_is_dead :
  forall w s0 s1 fuel keyData alg extractable keyUsages a j,
    normalize w op_importKey alg = inr a ->
    has_method a op_importKey = true ->
    JsonWebKey_new w (deref s0 keyData) = inr j ->
    invocations
      (snd (run (dispatch w s0 s1 fuel
                   (req_importKey "jwk" keyData alg extractable keyUsages))))
      = [(a, op_importKey,
          map Local
            [VString "jwk"; VJsonWebKey j; alg; VBoolean extractable;
             VArray keyUsages])].
Proof.
  intros w s0 s1 fuel keyData alg extractable0 keyUsages a j Hn Hm Hj.
  unfold_run. simpl deref. rewrite Hn. simpl.
  change (match keyData with
          | Caller r => VBytes (s0 r)
          | Local v => v
          end) with (deref s0 keyData).
  rewrite Hj. simpl. rewrite Hm. simpl.
  split_cases; reflexivity.
Qed.

(** * Further properties of the dispatcher *)

(** ** Normalization comes first *)

(** When the normalization a method relies on fails, the method returns a
    promise rejected with that very error; no key is looked at and no
    algorithm is called.  For [unwrapKey] this is the error of the
    [decrypt] normalization when both attempts on [unwrapAlgorithm] fail,
    else the error of its normalization under [importKey]. *)
Theorem normalization_failure_rejects :
  forall w s0 s1 fuel q e,
    normalization_error w q = Some e ->
    run (dispatch w s0 s1 (S fuel) q)
      = (Val (Rejected e), [Enter (method_of q)]).
Proof.
  intros w s0 s1 fuel q e H.
  destruct q; simpl in H; try discriminate H; unfold_run; simpl deref.
  1-6: destruct (normalize w _ _); simpl in H; [|discriminate H];
       injection H as ->; reflexivity.
  - destruct (normalize_or w _ _ _); simpl in H; [|discriminate H].
    injection H as ->. reflexivity.
  - destruct (normalize_or w _ _ _); [injection H as ->; reflexivity|].
    destruct (normalize w _ _); simpl in H; [|discriminate H].
    injection H as ->. reflexivity.
Qed.

(** The specification's fifth scenario: an unknown algorithm name. *)
Lemma normalization_failure_rejects_witness :
  run (dispatch Demo.world Demo.buffers Demo.overwritten 1
         (req_encrypt (VString "ZZZ") Demo.key 0))
    = (Val (Rejected (mkError NotSupportedError "ZZZ")), [Enter op_encrypt]).
Proof.
  apply (@normalization_failure_rejects Demo.world Demo.buffers
           Demo.overwritten 0 (req_encrypt (VString "ZZZ") Demo.key 0)).
  reflexivity.
Defined.

(** ** The guarded methods on a key that passes *)

(** [encrypt], [decrypt], [sign] and [verify], on a key that bears the name
    of the normalized algorithm and has the usage: the method of that name
    is called once, on the key and the copies of the octets (and, for
    [encrypt] and [decrypt], on the descriptor as the caller wrote it, not
    on its normalized form); what it returns resolves the promise and what
    it throws rejects it. *)
Theorem guarded_method_passes_through :
  forall w s0 s1 fuel q key u a args,
    gate q = Some (key, u) ->
    module_arguments s0 q = Some args ->
    normalized w q = Some a ->
    name a = name (algorithm key) ->
    In u (usages key) ->
    has_method a (method_of q) = true ->
    run (dispatch w s0 s1 fuel q)
      = (Val (settled_by (perform w a (method_of q) args)),
         [Enter (method_of q); Invoke a (method_of q) (map Local args)]).
Proof.
  intros w s0 s1 fuel q key u a args Hgate Hargs Hnorm Hname Hu Hm.
  apply includes_true in Hu.
  destruct q; simpl in Hgate, Hargs; try discriminate;
    injection Hgate as <- <-; injection Hargs as <-;
    apply to_option_Some in Hnorm; simpl in Hm;
    unfold_run; simpl deref;
    rewrite Hnorm, Hname, String.eqb_refl; simpl;
    rewrite Hu, Hm; simpl;
    destruct (perform w a _ _); reflexivity.
Qed.

(** A signature with the ECDSA stand-in. *)
Lemma guarded_method_passes_through_witness :
  run (dispatch Demo.world_gen Demo.buffers Demo.overwritten 1
         (req_sign (VString "ECDSA") Demo.signing_key 0))
    = (Val (Resolved (VBytes [x0b; x0a; xff])),
       [Enter op_sign;
        Invoke Demo.ECDSA op_sign
          [Local (VCryptoKey Demo.signing_key); Local (VBytes [xff; x0a; x0b])]]).
Proof.
  exact (@guarded_method_passes_through Demo.world_gen Demo.buffers
           Demo.overwritten 1 (req_sign (VString "ECDSA") Demo.signing_key 0)
           Demo.signing_key "sign" Demo.ECDSA
           [VCryptoKey Demo.signing_key; VBytes [xff; x0a; x0b]]
           eq_refl eq_refl eq_refl eq_refl (or_introl eq_refl) eq_refl).
Defined.

(** ** Which promises always settle *)

(** Every method but [wrapKey] and [unwrapKey] settles the promise it
    returns, whatever its arguments, the registry and the modules do: the
    promise is resolved or rejected, never left pending. *)
Theorem simple_methods_settle :
  forall w s0 s1 fuel q,
    composite q = false ->
    exists tr,
      (exists v, run (dispatch w s0 s1 fuel q) = (Val (Resolved v), tr)) \/
      (exists e, run (dispatch w s0 s1 fuel q) = (Val (Rejected e), tr)).
Proof.
  intros w s0 s1 fuel q H.
  destruct q; try discriminate H; unfold_run; split_cases; eauto.
Qed.

Lemma simple_methods_settle_witness :
  exists tr,
    (exists v, run (dispatch Demo.world Demo.buffers Demo.overwritten 0
                      (req_importKey "jwk" (Caller 1) (Demo.gcm []) true []))
                 = (Val (Resolved v), tr)) \/
    (exists e, run (dispatch Demo.world Demo.buffers Demo.overwritten 0
                      (req_importKey "jwk" (Caller 1) (Demo.gcm []) true []))
                 = (Val (Rejected e), tr)).
Proof.
  apply (@simple_methods_settle Demo.world Demo.buffers Demo.overwritten 0
           (req_importKey "jwk" (Caller 1) (Demo.gcm []) true [])).
  reflexivity.
Defined.

(** ** generateKey *)

(** [generateKey] calls the algorithm's [generateKey] on its three
    arguments and checks what comes back: a secret or private key without
    usages, and a key pair whose private key has no usages, reject the
    promise with a [SyntaxError]; anything else resolves it unchanged (the
    public key of a pair is not looked at, and [extractable] and [usages]
    are left as the module set them); an exception of the module rejects
    the promise. *)
Theorem generateKey_checks_result :
  forall w s0 alg extractable keyUsages a,
    normalize w op_generateKey alg = inr a ->
    has_method a op_generateKey = true ->
    let args := [alg; VBoolean extractable; VArray keyUsages] in
    run (generateKey w s0 (Local alg) (Local (VBoolean extractable))
           (Local (VArray keyUsages)))
      = (Val match perform w a op_generateKey args with
             | inl e => Rejected e
             | inr v =>
                 if acceptable v then Resolved v
                 else Rejected (mkError SyntaxError EmptyString)
             end,
         [Enter op_generateKey; Invoke a op_generateKey (map Local args)]).
Proof.
  intros w s0 alg extractable0 keyUsages a Hn Hm args. unfold args.
  cbv [generateKey]. unfold_run. rewrite Hn, Hm. simpl.
  destruct (perform w a op_generateKey _) as [e | v]; [reflexivity|].
  destruct v; try reflexivity; simpl.
  - destruct (restricted (type k) && emptyUsages (usages k)); reflexivity.
  - destruct (emptyUsages (usages privateKey)); reflexivity.
Qed.

(** An ECDSA pair asked for with [verify] alone: its private key is left
    without usages and the promise is rejected. *)
Lemma generateKey_checks_result_witness :
  run (generateKey Demo.world_gen Demo.buffers (Local (VString "ECDSA"))
         (Local (VBoolean false)) (Local (VArray ["verify"])))
    = (Val (Rejected (mkError SyntaxError EmptyString)),
       [Enter op_generateKey;
        Invoke Demo.ECDSA op_generateKey
          [Local (VString "ECDSA"); Local (VBoolean false);
           Local (VArray ["verify"])]]).
Proof.
  exact (@generateKey_checks_result Demo.world_gen Demo.buffers
           (VString "ECDSA") false ["verify"] Demo.ECDSA eq_refl eq_refl).
Defined.

(** ** deriveKey and deriveBits *)

(** [deriveKey] and [deriveBits] construct a promise without an executor:
    whatever their arguments, the call throws a [TypeError] to the caller;
    no promise is returned, nothing is normalized and no algorithm is
    called. *)
Theorem derive_methods_throw :
  forall alg baseKey derivedKeyType extractable keyUsages length,
    (exists e,
       run (deriveKey alg baseKey derivedKeyType extractable keyUsages)
         = (Exn e, [Enter op_deriveKey]) /\
       error_name e = TypeError) /\
    (exists e,
       run (deriveBits alg baseKey length) = (Exn e, [Enter op_deriveBits]) /\
       error_name e = TypeError).
Proof.
  intros. split; eexists; split; reflexivity.
Qed.

(** ** Octet inputs that are no buffers *)

(** The copy of the data is taken before the normalization in [encrypt],
    [sign] and [digest] and after it in [decrypt]: given data without a
    [slice] method (undefined, a key, an object), the first three throw a
    [TypeError] to the caller whatever the algorithm, while [decrypt]
    returns a promise rejected with the normalization error when the
    algorithm does not normalize, and throws only when it does. *)
Theorem data_without_slice :
  forall w s0 alg key data,
    sliceable data = false ->
    (exists e,
       run (encrypt w s0 (Local alg) key (Local data))
         = (Exn e, [Enter op_encrypt]) /\ error_name e = TypeError) /\
    (exists e,
       run (sign w s0 (Local alg) key (Local data))
         = (Exn e, [Enter op_sign]) /\ error_name e = TypeError) /\
    (exists e,
       run (digest w s0 (Local alg) (Local data))
         = (Exn e, [Enter op_digest]) /\ error_name e = TypeError) /\
    (forall e,
       normalize w op_decrypt alg = inl e ->
       run (decrypt w s0 (Local alg) key (Local data))
         = (Val (Rejected e), [Enter op_decrypt])) /\
    (forall a,
       normalize w op_decrypt alg = inr a ->
       exists e,
         run (decrypt w s0 (Local alg) key (Local data))
           = (Exn e, [Enter op_decrypt]) /\ error_name e = TypeError).
Proof.
  intros w s0 alg key data H.
  repeat split.
  1-3: destruct data; try discriminate H; eexists; split; reflexivity.
  - intros e He. unfold_run. simpl deref. rewrite He. reflexivity.
  - intros a Ha. unfold_run. simpl deref. rewrite Ha.
    destruct data; try discriminate H; eexists; split; reflexivity.
Qed.

Lemma data_without_slice_witness :
  exists e,
    run (encrypt Demo.world Demo.buffers (Local (VString "ZZZ"))
           (Local (VCryptoKey Demo.key)) (Local VUndefined))
      = (Exn e, [Enter op_encrypt]) /\ error_name e = TypeError.
Proof.
  apply (@data_without_slice Demo.world Demo.buffers (VString "ZZZ")
           (Local (VCryptoKey Demo.key)) VUndefined).
  reflexivity.
Defined.

(** ** importKey *)

Lemma octet_format_is_not_jwk (format : string) :
  is_octet_format (Local (VString format)) = true ->
  is_string (Local (VString format)) "jwk" = false.
Proof.
  unfold is_octet_format, is_string. intros H.
  apply orb_true_iff in H. destruct H as [H | H].
  - apply orb_true_iff in H.
    destruct H as [H | H]; apply String.eqb_eq in H; subst; reflexivity.
  - apply String.eqb_eq in H. subst. reflexivity.
Qed.

(** What [importKey] makes of the result of the algorithm's [importKey]. *)
Lemma importKey_after_import :
  forall w s0 s1 fuel format keyData alg extractable keyUsages a material,
    normalize w op_importKey alg = inr a ->
    has_method a op_importKey = true ->
    key_material w s0 format keyData = Some material ->
    settled (run (dispatch w s0 s1 fuel
                    (req_importKey format keyData alg extractable keyUsages)))
      = Some
          match perform_importKey w a
                  [VString format; material; alg; VBoolean extractable;
                   VArray keyUsages] with
          | inl e => Rejected e
          | inr k =>
              if restricted (type k) && emptyUsages (usages k)
              then Rejected (mkError SyntaxError EmptyString)
              else match recognizedKeyUsages_normalize w (VArray keyUsages) with
                   | inl e => Rejected e
                   | inr us => Resolved (VCryptoKey (reassigned k extractable us))
                   end
          end.
Proof.
  intros w s0 s1 fuel format keyData alg extractable0 keyUsages a material
    Hn Hm Hmat.
  unfold key_material in Hmat. unfold settled, reassigned.
  unfold_run. simpl deref. rewrite Hn.
  destruct (is_octet_format (Local (VString format))) eqn:Ho.
  - rewrite (octet_format_is_not_jwk _ Ho).
    destruct (instanceof_JsonWebKey keyData) eqn:Hj; [discriminate Hmat|].
    destruct keyData as [r | v].
    + injection Hmat as <-. simpl. rewrite Hm. simpl.
      split_cases; reflexivity.
    + destruct v; try discriminate Hmat; injection Hmat as <-; simpl;
        rewrite Hm; simpl; split_cases; reflexivity.
  - destruct (is_string (Local (VString format)) "jwk").
    + destruct keyData as [r | v]; simpl in Hmat |- *;
        (destruct (JsonWebKey_new w _); [discriminate Hmat|]);
        injection Hmat as <-; simpl; rewrite Hm; simpl;
        split_cases; reflexivity.
    + injection Hmat as <-. simpl. rewrite Hm. simpl.
      destruct keyData; simpl; split_cases; reflexivity.
Qed.

(** When the algorithm's [importKey] returns a secret or private key that
    has no usages, [importKey] rejects with a [SyntaxError], whatever usages
    the caller asked for: the check reads the usages the module set. *)
Theorem importKey_rejects_unusable_key :
  forall w s0 s1 fuel format keyData alg extractable keyUsages a material k,
    normalize w op_importKey alg = inr a ->
    has_method a op_importKey = true ->
    key_material w s0 format keyData = Some material ->
    perform_importKey w a
      [VString format; material; alg; VBoolean extractable; VArray keyUsages]
      = inr k ->
    restricted (type k) = true ->
    usages k = [] ->
    settled (run (dispatch w s0 s1 fuel
                    (req_importKey format keyData alg extractable keyUsages)))
      = Some (Rejected (mkError SyntaxError EmptyString)).
Proof.
  intros w s0 s1 fuel format keyData alg extractable0 keyUsages a material k
    Hn Hm Hmat Hk Hr Hu.
  rewrite (@importKey_after_import w s0 s1 fuel format keyData alg
             extractable0 keyUsages a material Hn Hm Hmat), Hk, Hr, Hu.
  reflexivity.
Qed.

Lemma importKey_rejects_unusable_key_witness :
  settled (run (dispatch Demo.world Demo.buffers Demo.overwritten 0
                  (req_importKey "raw" (Caller 0) (Demo.gcm []) true [])))
    = Some (Rejected (mkError SyntaxError EmptyString)).
Proof.
  exact (@importKey_rejects_unusable_key Demo.world Demo.buffers
           Demo.overwritten 0 "raw" (Caller 0) (Demo.gcm []) true []
           Demo.AES_GCM (VBytes [xff; x0a; x0b])
           (mkCryptoKey secret true Demo.AES_GCM [] [xff; x0a; x0b])
           eq_refl eq_refl eq_refl eq_refl eq_refl eq_refl).
Defined.

(** When the algorithm's [importKey] returns a usable key, the key the
    promise resolves with has the type, algorithm and handle of that key,
    the [extractable] of the call and, as usages, what
    [recognizedKeyUsages.normalize] makes of the [keyUsages] of the call,
    whatever the module had set for the two; when [keyUsages] does not
    normalize, the promise is rejected with that error although the key has
    been imported. *)
Theorem importKey_reassigns_extractable_and_usages :
  forall w s0 s1 fuel format keyData alg extractable keyUsages a material k,
    normalize w op_importKey alg = inr a ->
    has_method a op_importKey = true ->
    key_material w s0 format keyData = Some material ->
    perform_importKey w a
      [VString format; material; alg; VBoolean extractable; VArray keyUsages]
      = inr k ->
    restricted (type k) && emptyUsages (usages k) = false ->
    settled (run (dispatch w s0 s1 fuel
                    (req_importKey format keyData alg extractable keyUsages)))
      = Some match recognizedKeyUsages_normalize w (VArray keyUsages) with
             | inl e => Rejected e
             | inr us => Resolved (VCryptoKey (reassigned k extractable us))
             end.
Proof.
  intros w s0 s1 fuel format keyData alg extractable0 keyUsages a material k
    Hn Hm Hmat Hk Hu.
  rewrite (@importKey_after_import w s0 s1 fuel format keyData alg
             extractable0 keyUsages a material Hn Hm Hmat), Hk, Hu.
  reflexivity.
Qed.

(** Usages given twice are kept once in the imported key. *)
Lemma importKey_reassigns_extractable_and_usages_witness :
  settled (run (dispatch Demo.world Demo.buffers Demo.overwritten 0
                  (req_importKey "raw" (Caller 0) (Demo.gcm []) false
                     ["encrypt"; "decrypt"; "encrypt"])))
    = Some (Resolved (VCryptoKey
              (mkCryptoKey secret false Demo.AES_GCM ["decrypt"; "encrypt"]
                 [xff; x0a; x0b]))).
Proof.
  exact (@importKey_reassigns_extractable_and_usages Demo.world Demo.buffers
           Demo.overwritten 0 "raw" (Caller 0) (Demo.gcm []) false
           ["encrypt"; "decrypt"; "encrypt"] Demo.AES_GCM
           (VBytes [xff; x0a; x0b])
           (mkCryptoKey secret false Demo.AES_GCM
              ["encrypt"; "decrypt"; "encrypt"] [xff; x0a; x0b])
           eq_refl eq_refl eq_refl eq_refl eq_refl).
Defined.

(** ** exportKey *)

(** [exportKey] of an extractable key whose algorithm name is registered
    for [exportKey] calls the [exportKey] method of the algorithm object
    the key carries, on the format and the key: nothing is normalized, no
    usage is asked of the key and the format is not examined; what the
    method returns resolves the promise and what it throws rejects it. *)
Theorem exportKey_passes_through :
  forall w s0 s1 fuel format key,
    registered w op_exportKey (name (algorithm key)) = true ->
    extractable key = true ->
    has_method (algorithm key) op_exportKey = true ->
    let args := [VString format; VCryptoKey key] in
    run (dispatch w s0 s1 fuel (req_exportKey format key))
      = (Val (settled_by (perform w (algorithm key) op_exportKey args)),
         [Enter op_exportKey;
          Invoke (algorithm key) op_exportKey (map Local args)]).
Proof.
  intros w s0 s1 fuel format key Hr He Hm args. unfold args.
  unfold_run. rewrite Hr, He, Hm. simpl.
  destruct (perform w (algorithm key) op_exportKey _); reflexivity.
Qed.

Lemma exportKey_passes_through_witness :
  run (dispatch Demo.world Demo.buffers Demo.overwritten 0
         (req_exportKey "raw" Demo.key))
    = (Val (Resolved (VBytes [x63; x4c; xed])),
       [Enter op_exportKey;
        Invoke Demo.AES_GCM op_exportKey
          [Local (VString "raw"); Local (VCryptoKey Demo.key)]]).
Proof.
  exact (@exportKey_passes_through Demo.world Demo.buffers Demo.overwritten 0
           "raw" Demo.key eq_refl eq_refl eq_refl).
Defined.

(** A key whose algorithm name is not registered for [exportKey] can be
    neither exported nor wrapped, extractable or not: [exportKey] rejects
    with the [NotSupportedError] that carries the name, and so does
    [wrapKey] under a wrapping key that passes its check; the algorithm of
    the key is not called. *)
Theorem unregistered_key_is_not_exported :
  forall w s0 s1 fuel format key,
    registered w op_exportKey (name (algorithm key)) = false ->
    let refused := mkError NotSupportedError (name (algorithm key)) in
    run (dispatch w s0 s1 fuel (req_exportKey format key))
      = (Val (Rejected refused), [Enter op_exportKey]) /\
    forall wrappingKey wrapAlgorithm a,
      normalized w (req_wrapKey format key wrappingKey wrapAlgorithm) = Some a ->
      name a = name (algorithm wrappingKey) ->
      In "wrapKey" (usages wrappingKey) ->
      run (dispatch w s0 s1 fuel (req_wrapKey format key wrappingKey wrapAlgorithm))
        = (Val (Rejected refused), [Enter op_wrapKey]).
Proof.
  intros w s0 s1 fuel format key Hreg refused. unfold refused. split.
  - unfold_run. rewrite Hreg. reflexivity.
  - intros wrappingKey wrapAlgorithm a Hnorm Hname Hu.
    apply to_option_Some in Hnorm. apply includes_true in Hu.
    unfold_run. simpl deref. rewrite Hnorm, Hname, String.eqb_refl. simpl.
    rewrite Hu, Hreg. reflexivity.
Qed.

Lemma unregistered_key_is_not_exported_witness :
  run (dispatch Demo.world Demo.buffers Demo.overwritten 0
         (req_wrapKey "raw" Demo.pbkdf2_key Demo.key (Demo.gcm Demo.iv)))
    = (Val (Rejected (mkError NotSupportedError "PBKDF2")), [Enter op_wrapKey]).
Proof.
  destruct (@unregistered_key_is_not_exported Demo.world Demo.buffers
              Demo.overwritten 0 "raw" Demo.pbkdf2_key eq_refl) as [_ H].
  apply (H Demo.key (Demo.gcm Demo.iv) Demo.AES_GCM eq_refl eq_refl).
  simpl. right. right. left. reflexivity.
Defined.
